(** * chimerascan: the chimera filter stage and its pipeline guards

    A shallow embedding of [chimerascan/pipeline/filter_chimeras.py] and of
    the parts of [chimerascan_run.py] that drive it: the staleness test
    [up_to_date], the insert-size fallback and the call of the filter stage.

    Python floats (weighted coverage, modification times, standard
    deviations) are finite values compared with [>=], [>] and [==]; they
    are embedded as canonical rationals [Qc], on which Leibniz equality is
    equality of values.  Python integers are [Z]. *)

From Stdlib Require Import ZArith QArith Qcanon String Ascii.
From stdpp Require Import base numbers option list sorting gmap sets strings
  fin_maps stringmap.

Local Open Scope Z_scope.

(** ** Chimera records

    [chimerascan.lib.chimera.Chimera] is imported by the filter module; the
    filter reads two partner objects and four accessors of a record. *)

(** Modelled from the spec: the class of a chimera partner lives in
    [chimerascan.lib.chimera], which the filter module only imports.  The
    record holds the attributes the filter reads: the transcript id, the
    boundary coordinates and the implied unspanned ("inner") distance. *)
Record ChimeraPartner : Type := mkPartner {
  tx_name : string;
  start : Z;
  end_ : Z;
  inner_dist : Z
}.

(** Modelled from the spec: [Chimera] lives in [chimerascan.lib.chimera].
    The record holds [c.name], the two partners, and the values returned by
    [get_weighted_unique_frags()], [get_num_unique_spanning_positions()],
    [get_weighted_cov()] and [get_num_frags()]. *)
Record Chimera : Type := mkChimera {
  name : string;
  partner5p : ChimeraPartner;
  partner3p : ChimeraPartner;
  get_weighted_unique_frags : Qc;
  get_num_unique_spanning_positions : Z;
  get_weighted_cov : Qc;
  get_num_frags : Z
}.

Global Instance ChimeraPartner_eq_dec : EqDecision ChimeraPartner.
Proof. solve_decision. Defined.

Global Instance Chimera_eq_dec : EqDecision Chimera.
Proof. solve_decision. Defined.

(** ** The per-record filters of [filter_chimeras.py] *)

(** [return c.get_weighted_unique_frags() >= threshold] *)
Definition filter_weighted_frags (c : Chimera) (threshold : Qc) : bool :=
  bool_decide (threshold ≤ get_weighted_unique_frags c)%Qc.

(** [filter_inner_dist]: disabled for [max_isize <= 0], otherwise either
    partner's inner distance above [max_isize] rejects. *)
Definition filter_inner_dist (c : Chimera) (max_isize : Z) : bool :=
  if bool_decide (max_isize ≤ 0) then true
  else if bool_decide (max_isize < inner_dist (partner5p c)) then false
  else if bool_decide (max_isize < inner_dist (partner3p c)) then false
  else true.

(** Defaults of the run configuration ([chimerascan_run.py], trunk). *)
Definition DEFAULT_ANCHOR_MIN : Z := 4.
Definition DEFAULT_ANCHOR_LENGTH : Z := 8.
Definition DEFAULT_ANCHOR_MISMATCHES : Z := 0.
Definition DEFAULT_MISMATCHES : Z := 2.
Definition DEFAULT_COV_WITHOUT_SPANNING : Qc := Qc_of_Z 3.
Definition DEFAULT_COV_WITH_SPANNING : Qc := Qc_of_Z 2.

(** The coverage rule in the words of the specification: the lower
    threshold applies to a record with at least one spanning read, the
    higher one otherwise.  This is the rule the docstring of
    [filter_weighted_frags] announces and the one the trunk driver
    expects when it passes [cov_w_spanning] and [cov_wo_spanning]. *)
Definition has_spanning (c : Chimera) : bool :=
  bool_decide (0 < get_num_unique_spanning_positions c).

Definition coverage_rule_of_spec (cov_w_spanning cov_wo_spanning : Qc)
    (c : Chimera) : bool :=
  if has_spanning c
  then bool_decide (cov_w_spanning ≤ get_weighted_unique_frags c)%Qc
  else bool_decide (cov_wo_spanning ≤ get_weighted_unique_frags c)%Qc.

(** ** Spanning-read anchors *)

(** A read realigned across a junction: the overlap on either side of
    the breakpoint and the mismatches of its alignment. *)
Record SpanningRead : Type := mkSpanningRead {
  left_anchor_bp : Z;
  right_anchor_bp : Z;
  read_mismatches : Z
}.

Definition shorter_anchor (r : SpanningRead) : Z :=
  Z.min (left_anchor_bp r) (right_anchor_bp r).

(** Modelled from the spec: [merge_spanning_alignments] lives in
    [chimerascan.pipeline.merge_spanning_alignments]; the driver only calls
    it with [anchor_min], [anchor_length] and [anchor_mismatches].  A read
    is spanning evidence when both anchors reach [anchor_min], when a
    shorter anchor below [anchor_length] comes with at most
    [anchor_mismatches] mismatches, and when the read is within the
    aligner's global mismatch budget. *)
Definition spanning_read_accepted
    (anchor_min anchor_length anchor_mismatches mismatches : Z)
    (r : SpanningRead) : bool :=
  if bool_decide (left_anchor_bp r < anchor_min) then false
  else if bool_decide (right_anchor_bp r < anchor_min) then false
  else if bool_decide (shorter_anchor r < anchor_length)
          && bool_decide (anchor_mismatches < read_mismatches r) then false
  else bool_decide (read_mismatches r ≤ mismatches).

(** ** Staleness of a stage output: [up_to_date] *)

(** What [os.path.exists], [os.path.getsize] and [os.path.getmtime] see
    of a path: absent from the map, or present with a size in bytes and
    a modification time. *)
Record stat : Type := mkStat {
  st_size : N;
  st_mtime : Qc
}.

Definition up_to_date (meta : gmap string stat) (outfile infile : string) : bool :=
  match meta !! infile with
  | None => false
  | Some st_in =>
      match meta !! outfile with
      | None => false
      | Some st_out =>
          if bool_decide (st_size st_out = 0%N) then false
          else bool_decide (st_mtime st_in ≤ st_mtime st_out)%Qc
      end
  end.

(** The guard every stage of [run_chimerascan] is wrapped in:
    [if up_to_date(out, inp): logging.info("[SKIPPED] ...") else: <run>]. *)
Inductive stage_action : Type := Skipped | Rerun.

Definition stage_guard (meta : gmap string stat) (outfile infile : string)
    : stage_action :=
  if up_to_date meta outfile infile then Skipped else Rerun.

(** ** Insert-size profiling with its synthetic fallback *)

Inductive log_level : Type := DEBUG | INFO | WARNING | ERROR.

Abbreviation log_record := (log_level * string)%type.

(** The interface of [chimerascan.pipeline.profile_insert_size] and the
    two sample bounds of [chimerascan.lib.config], as the driver uses
    them.  [from_random] draws from a generator state. *)
Class InsertSizeLib : Type := {
  InsertSizeDistribution : Type;
  Samfile : Type;
  RandomState : Type;
  isize_n : InsertSizeDistribution → Z;
  from_bam : Samfile → Z → Z → Z → InsertSizeDistribution;
  from_random : RandomState → Z → Qc → Z → Z → Z → InsertSizeDistribution;
  isize_at_percentile : InsertSizeDistribution → Qc → Z;
  ISIZE_MIN_SAMPLES : Z;
  ISIZE_MAX_SAMPLES : Z
}.

(** The fields of [RunConfig] read by the insert-size and filter stages. *)
Record RunConfig : Type := mkRunConfig {
  trim5 : Z;
  trim3 : Z;
  min_fragment_length : Z;
  max_fragment_length : Z;
  isize_mean : Z;
  isize_stdev : Qc;
  filter_isize_percentile : Qc
}.

(** What the insert-size stage leaves behind: the diagnostics it logged,
    the distribution files on disk, and the distribution handed on to
    the later stages ([None] when reading a stored file failed). *)
Record isize_outcome `{InsertSizeLib} : Type := mkIsizeOutcome {
  isize_log : list log_record;
  isize_files : gmap string InsertSizeDistribution;
  isize_dist : option InsertSizeDistribution
}.

Definition msg_skipped : string := "[SKIPPED] Profiling insert size distribution".
Definition msg_profiling : string := "Profiling insert size distribution".
Definition msg_not_enough : string :=
  "Not enough fragments to sample insert size distribution empirically.  Using mean=%d stdev=%f instead".
Definition msg_samples : string :=
  "Insert size samples=%d mean=%f std=%f median=%d mode=%d".

(** Lines 504-508 and 577-606 of [run_chimerascan]. *)
Definition profile_insert_size `{InsertSizeLib}
    (runconfig : RunConfig) (original_read_length : Z)
    (meta : gmap string stat) (files : gmap string InsertSizeDistribution)
    (bamfh : Samfile) (rng : RandomState)
    (isize_dist_file aligned_bam_file : string) : isize_outcome :=
  let trimmed_read_length :=
    original_read_length - trim5 runconfig - trim3 runconfig in
  let min_fragment_length' :=
    Z.max (min_fragment_length runconfig) trimmed_read_length in
  if up_to_date meta isize_dist_file aligned_bam_file then
    match files !! isize_dist_file with
    | Some stored =>
        mkIsizeOutcome _ [(INFO, msg_skipped); (INFO, msg_samples)] files
                       (Some stored)
    | None => mkIsizeOutcome _ [(INFO, msg_skipped)] files None
    end
  else
    let max_isize_samples := ISIZE_MAX_SAMPLES in
    let empirical :=
      from_bam bamfh min_fragment_length' (max_fragment_length runconfig)
               max_isize_samples in
    if bool_decide (isize_n empirical < ISIZE_MIN_SAMPLES) then
      let synthetic :=
        from_random rng (isize_mean runconfig) (isize_stdev runconfig)
                    (min_fragment_length runconfig)
                    (max_fragment_length runconfig) max_isize_samples in
      mkIsizeOutcome _
        [(INFO, msg_profiling); (WARNING, msg_not_enough); (INFO, msg_samples)]
        (<[isize_dist_file := synthetic]> files) (Some synthetic)
    else
      mkIsizeOutcome _ [(INFO, msg_profiling); (INFO, msg_samples)]
                     (<[isize_dist_file := empirical]> files) (Some empirical).

(** The value the filter stage receives as [max_isize] (line 835). *)
Definition filter_max_isize `{InsertSizeLib}
    (runconfig : RunConfig) (d : InsertSizeDistribution) : Z :=
  isize_at_percentile d (filter_isize_percentile runconfig).

(** ** Text helpers of [read_false_pos_file]

    [line.strip()], [.split("\t")] and [int(...)] on byte strings. *)

Definition is_space (a : ascii) : bool :=
  let n := N_of_ascii a in
  (n =? 32)%N || ((9 <=? n)%N && (n <=? 13)%N).

Definition is_tab (a : ascii) : bool := (N_of_ascii a =? 9)%N.

Fixpoint lstrip (s : string) : string :=
  match s with
  | EmptyString => EmptyString
  | String a s' => if is_space a then lstrip s' else s
  end.

Fixpoint rstrip (s : string) : string :=
  match s with
  | EmptyString => EmptyString
  | String a s' =>
      match rstrip s' with
      | EmptyString => if is_space a then EmptyString else String a EmptyString
      | r => String a r
      end
  end.

Definition strip (s : string) : string := rstrip (lstrip s).

Fixpoint split_tab (s : string) : list string :=
  match s with
  | EmptyString => [EmptyString]
  | String a s' =>
      if is_tab a then EmptyString :: split_tab s'
      else match split_tab s' with
           | [] => [String a EmptyString]
           | f :: fs => String a f :: fs
           end
  end.

Definition digit_of (a : ascii) : option Z :=
  let n := Z.of_N (N_of_ascii a) in
  if bool_decide (48 ≤ n ≤ 57) then Some (n - 48) else None.

Fixpoint digits_value (acc : Z) (s : string) : option Z :=
  match s with
  | EmptyString => Some acc
  | String a s' => d ← digit_of a; digits_value (10 * acc + d) s'
  end.

Definition unsigned_int (s : string) : option Z :=
  match s with
  | EmptyString => None
  | _ => digits_value 0 s
  end.

(** [int(s)] for a decimal literal: surrounding white space and one
    leading sign are accepted, anything else raises [ValueError]. *)
Definition py_int (s : string) : option Z :=
  match strip s with
  | String a ds =>
      if bool_decide (a = "-"%char) then Z.opp <$> unsigned_int ds
      else if bool_decide (a = "+"%char) then unsigned_int ds
      else unsigned_int (String a ds)
  | EmptyString => None
  end.

(** ** Files and the effects of the filter stage *)

(** A file is its sequence of lines.  A line of a chimera file is the
    record [Chimera.parse] reads from it, which is also the record whose
    [to_list()] was printed there; any other line is text. *)
Inductive line : Type :=
  | RecordLine (c : Chimera)
  | TextLine (s : string).

Global Instance line_eq_dec : EqDecision line.
Proof. solve_decision. Defined.

Abbreviation filesystem := (gmap string (list line)).

Definition as_record (l : line) : option Chimera :=
  match l with RecordLine c => Some c | TextLine _ => None end.

Definition as_text (l : line) : option string :=
  match l with TextLine s => Some s | RecordLine _ => None end.

(** Computations that read and write files and may raise: the file
    system is threaded through, [None] is a propagating exception. *)
Definition IO (A : Type) : Type := filesystem → filesystem * option A.

Global Instance IO_ret : MRet IO := λ A x fs, (fs, Some x).

Global Instance IO_bind : MBind IO := λ A B f m fs,
  match m fs with
  | (fs', Some x) => f x fs'
  | (fs', None) => (fs', None)
  end.

Definition io_lift {A} (o : option A) : IO A := λ fs, (fs, o).

(** [open(path)]: the lines of an existing file, [IOError] otherwise. *)
Definition open_read (path : string) : IO (list line) := λ fs, (fs, fs !! path).

(** [open(path, "w")]: the file is created or truncated. *)
Definition open_write (path : string) : IO unit :=
  λ fs, (<[path := []]> fs, Some tt).

(** [print >>f, ...] for each of [ls], on the file opened at [path]. *)
Definition print_lines (path : string) (ls : list line) : IO unit :=
  λ fs, (<[path := default [] (fs !! path) ++ ls]> fs, Some tt).

(** [os.remove(path)] *)
Definition os_remove (path : string) : IO unit := λ fs,
  match fs !! path with
  | Some _ => (delete path fs, Some tt)
  | None => (fs, None)
  end.

(** [Chimera.parse(open(path))] *)
Definition Chimera_parse (path : string) : IO (list Chimera) :=
  ls ← open_read path; io_lift (mapM as_record ls).

(** Modelled from the spec: [make_temp] lives in [chimerascan.lib.base].
    It creates a file that did not exist before under the given directory
    and returns its path; [os.path.dirname], [os.path.join] and the file
    name [config.GENE_FEATURE_FILE] come with it. *)
Class OsLib : Type := {
  make_temp_name : filesystem → string → string → string;
  make_temp_fresh : ∀ fs dir suffix, fs !! make_temp_name fs dir suffix = None;
  dirname : string → string;
  path_join : string → string → string;
  GENE_FEATURE_FILE : string
}.

Definition make_temp `{OsLib} (dir suffix : string) : IO string := λ fs,
  let p := make_temp_name fs dir suffix in (<[p := []]> fs, Some p).

Definition JOB_SUCCESS : Z := 0.

(** ** The false-positive blacklist *)

Abbreviation false_pos_key := (string * Z * string * Z)%type.

(** One line of the blacklist: four tab-separated fields, the second and
    the fourth integers. *)
Definition parse_false_pos_line (l : line) : option false_pos_key :=
  s ← as_text l;
  match split_tab (strip s) with
  | [tx_name_5p; end5p; tx_name_3p; start3p] =>
      end5p' ← py_int end5p;
      start3p' ← py_int start3p;
      Some (tx_name_5p, end5p', tx_name_3p, start3p')
  | _ => None
  end.

Definition read_false_pos_file (filename : string) : IO (gset false_pos_key) :=
  ls ← open_read filename;
  keys ← io_lift (mapM parse_false_pos_line ls);
  mret (list_to_set keys).

Definition chimera_false_pos_key (c : Chimera) : false_pos_key :=
  (tx_name (partner5p c), end_ (partner5p c),
   tx_name (partner3p c), start (partner3p c)).

(** Lines 114-118: the blacklist is read when a file name is given and
    is not the empty string, and is empty otherwise. *)
Definition load_false_pos (false_pos_file : option string)
    : IO (gset false_pos_key) :=
  match false_pos_file with
  | Some f => if bool_decide (f = ""%string) then mret ∅
              else read_false_pos_file f
  | None => mret ∅
  end.

(** The conjunction computed for each record in the first loop of
    [filter_chimeras]. *)
Definition good (weighted_unique_frags : Qc) (max_isize : Z)
    (false_pos_pairs : gset false_pos_key) (c : Chimera) : bool :=
  filter_weighted_frags c weighted_unique_frags
  && filter_inner_dist c max_isize
  && bool_decide (chimera_false_pos_key c ∉ false_pos_pairs).

(** ** Isoform collapse *)

(** The interface of [chimerascan.lib.gene_to_genome]: the transcript to
    cluster table and the transcript to genome coordinate map are built
    from the gene feature file; a lookup may raise. *)
Class GeneLib : Type := {
  Cluster : Type;
  Coord : Type;
  TxGenomeMap : Type;
  Cluster_eq_dec :: EqDecision Cluster;
  Cluster_countable :: Countable Cluster;
  Coord_eq_dec :: EqDecision Coord;
  Coord_countable :: Countable Coord;
  build_tx_cluster_map : list line → option (gmap string Cluster);
  build_gene_to_genome_map : list line → option TxGenomeMap;
  gene_to_genome_pos : string → Z → TxGenomeMap → option Coord
}.

(** [(spanning positions, weighted coverage, fragments)], the tail
    [stats_info[1:]] of the tuple built for each record. *)
Abbreviation stats := (Z * Qc * Z)%type.

(** [(c.name, spanning positions, weighted coverage, fragments)] *)
Abbreviation stats_info := (string * stats)%type.

Definition chimera_stats (c : Chimera) : stats :=
  (get_num_unique_spanning_positions c, get_weighted_cov c, get_num_frags c).

(** Tuple comparison is lexicographic. *)
Definition stats_le (s t : stats) : Prop :=
  s.1.1 < t.1.1
  ∨ (s.1.1 = t.1.1
     ∧ ((s.1.2 < t.1.2)%Qc ∨ (s.1.2 = t.1.2 ∧ s.2 ≤ t.2))).

Global Instance stats_le_dec : RelDecision stats_le.
Proof. intros s t. unfold stats_le. apply _. Defined.

(** The order [sorted(..., reverse=True)] sorts by. *)
Definition stats_ge (s t : stats) : Prop := stats_le t s.

Global Instance stats_ge_dec : RelDecision stats_ge.
Proof. intros s t. unfold stats_ge. apply _. Defined.

Section Isoforms.
Context `{GeneLib}.

Abbreviation cluster_key := (Cluster * Cluster * Coord * Coord)%type.

(** Lines 79-83: the clusters of the two transcripts and the genomic
    positions of the two breakpoints. *)
Definition breakpoint_key (tx_cluster_map : gmap string Cluster)
    (tx_genome_map : TxGenomeMap) (c : Chimera) : option cluster_key :=
  cluster5p ← tx_cluster_map !! tx_name (partner5p c);
  cluster3p ← tx_cluster_map !! tx_name (partner3p c);
  coord5p ← gene_to_genome_pos (tx_name (partner5p c))
                               (end_ (partner5p c) - 1) tx_genome_map;
  coord3p ← gene_to_genome_pos (tx_name (partner3p c))
                               (start (partner3p c)) tx_genome_map;
  Some (cluster5p, cluster3p, coord5p, coord3p).

(** Lines 73-85: [cluster_chimera_dict[...].append(key)] for each record
    in file order. *)
Fixpoint cluster_chimeras (tx_cluster_map : gmap string Cluster)
    (tx_genome_map : TxGenomeMap)
    (cluster_chimera_dict : gmap cluster_key (list stats_info))
    (records : list Chimera) : option (gmap cluster_key (list stats_info)) :=
  match records with
  | [] => Some cluster_chimera_dict
  | c :: records' =>
      k ← breakpoint_key tx_cluster_map tx_genome_map c;
      cluster_chimeras tx_cluster_map tx_genome_map
        (<[k := default [] (cluster_chimera_dict !! k)
                ++ [(name c, chimera_stats c)]]> cluster_chimera_dict)
        records'
  end.

(** Lines 90-93: [stats_dict[stats_info[1:]].add(stats_info[0])]. *)
Definition index_step (stats_dict : gmap stats (gset string))
    (info : stats_info) : gmap stats (gset string) :=
  <[info.2 := default ∅ (stats_dict !! info.2) ∪ {[info.1]}]> stats_dict.

Definition index_names (stats_list : list stats_info)
    : gmap stats (gset string) :=
  foldl index_step ∅ stats_list.

(** Lines 95-96: the names filed under the first key in descending
    order; [sorted_keys[0]] raises on an empty list. *)
Definition highest_names (stats_list : list stats_info) : option (gset string) :=
  let stats_dict := index_names stats_list in
  let sorted_keys := merge_sort stats_ge (elements (dom stats_dict)) in
  k ← head sorted_keys;
  stats_dict !! k.

(** Lines 88-97: the union over all groups. *)
Definition choose_highest
    (cluster_chimera_dict : gmap cluster_key (list stats_info))
    : option (gset string) :=
  sets ← mapM highest_names ((map_to_list cluster_chimera_dict).*2);
  Some (⋃ sets).

(** The computation of [get_highest_coverage_isoforms] on the records
    of its input file, once the two tables are built. *)
Definition kept_names (tx_cluster_map : gmap string Cluster)
    (tx_genome_map : TxGenomeMap) (records : list Chimera)
    : option (gset string) :=
  cluster_chimeras tx_cluster_map tx_genome_map ∅ records
    ≫= choose_highest.

Definition get_highest_coverage_isoforms (input_file gene_file : string)
    : IO (gset string) :=
  gene_lines ← open_read gene_file;
  tx_cluster_map ← io_lift (build_tx_cluster_map gene_lines);
  gene_lines' ← open_read gene_file;
  tx_genome_map ← io_lift (build_gene_to_genome_map gene_lines');
  records ← Chimera_parse input_file;
  io_lift (kept_names tx_cluster_map tx_genome_map records).

(** Lines 148-151: the records of a file whose name was selected. *)
Definition keep_selected (kept_chimeras : gset string)
    (records : list Chimera) : list Chimera :=
  filter (λ c, name c ∈ kept_chimeras) records.

(** The isoform-collapse pass on a record set: select the names, then
    keep the selected records. *)
Definition isoform_collapse (tx_cluster_map : gmap string Cluster)
    (tx_genome_map : TxGenomeMap) (records : list Chimera)
    : option (list Chimera) :=
  kept_chimeras ← kept_names tx_cluster_map tx_genome_map records;
  Some (keep_selected kept_chimeras records).

Context `{OsLib}.

Definition filter_chimeras (input_file output_file index_dir : string)
    (weighted_unique_frags : Qc) (max_isize : Z)
    (false_pos_file : option string) : IO Z :=
  false_pos_pairs ← load_false_pos false_pos_file;
  tmp_file ← make_temp (dirname output_file) ".txt";
  open_write tmp_file;;
  records ← Chimera_parse input_file;
  print_lines tmp_file
    (RecordLine <$>
       filter (λ c, good weighted_unique_frags max_isize false_pos_pairs c)
              records);;
  let gene_file := path_join index_dir GENE_FEATURE_FILE in
  kept_chimeras ← get_highest_coverage_isoforms tmp_file gene_file;
  open_write output_file;;
  records' ← Chimera_parse input_file;
  print_lines output_file (RecordLine <$> keep_selected kept_chimeras records');;
  os_remove tmp_file;;
  mret JOB_SUCCESS.

End Isoforms.

(** ** A small annotation and a small file system

    A concrete instance of each interface, on which the definitions
    above run. *)

(** A gene feature line [tx <TAB> cluster <TAB> genome offset]. *)
Definition parse_gene_line (l : line) : option (string * (Z * Z)) :=
  s ← as_text l;
  match split_tab (strip s) with
  | [tx; cluster; offset] =>
      cluster' ← py_int cluster;
      offset' ← py_int offset;
      Some (tx, (cluster', offset'))
  | _ => None
  end.

Definition table_gene_lib : GeneLib := {|
  Cluster := Z;
  Coord := Z;
  TxGenomeMap := gmap string Z;
  build_tx_cluster_map ls :=
    rows ← mapM parse_gene_line ls;
    Some (list_to_map ((λ r : string * (Z * Z), (r.1, r.2.1)) <$> rows));
  build_gene_to_genome_map ls :=
    rows ← mapM parse_gene_line ls;
    Some (list_to_map ((λ r : string * (Z * Z), (r.1, r.2.2)) <$> rows));
  gene_to_genome_pos tx pos tx_genome_map :=
    offset ← tx_genome_map !! tx; Some (offset + pos)
|}.

(** The part of a path before its last separator, if it has one. *)
Fixpoint before_last_slash (p : string) : option string :=
  match p with
  | EmptyString => None
  | String a p' =>
      match before_last_slash p' with
      | Some d => Some (String a d)
      | None => if bool_decide (a = "/"%char) then Some EmptyString else None
      end
  end.

(** Temporary files get the first free name [dir/tmp<suffix>],
    [dir/tmp<suffix>0], [dir/tmp<suffix>1], ... *)
Definition fresh_os_lib : OsLib := {|
  make_temp_name fs dir suffix := fresh_string (dir +:+ "/tmp" +:+ suffix) fs;
  make_temp_fresh fs dir suffix := fresh_string_fresh fs _;
  dirname p := default EmptyString (before_last_slash p);
  path_join d f := d +:+ "/" +:+ f;
  GENE_FEATURE_FILE := "gene_features.txt"
|}.

Definition tab : string := String (ascii_of_N 9) EmptyString.

Definition demo_genes : list line :=
  [ TextLine ("txA1" +:+ tab +:+ "1" +:+ tab +:+ "1000");
    TextLine ("txA2" +:+ tab +:+ "1" +:+ tab +:+ "1000");
    TextLine ("txB1" +:+ tab +:+ "2" +:+ tab +:+ "5000") ].

Definition demo_chimera (n tx5 tx3 : string) (end5 start3 : Z)
    (dist5 dist3 : Z) (wuf : Qc) (spanning : Z) (cov : Qc) (frags : Z)
    : Chimera :=
  mkChimera n (mkPartner tx5 0 end5 dist5) (mkPartner tx3 start3 (start3 + 100) dist3)
            wuf spanning cov frags.

(** Two isoform observations of one fusion, the second better covered,
    and a blacklisted third one. *)
Definition demo_c1 : Chimera :=
  demo_chimera "C1" "txA1" "txB1" 300 20 150 100 (Q2Qc (7 # 2)) 0 (Q2Qc (7 # 2)) 4.
Definition demo_c2 : Chimera :=
  demo_chimera "C2" "txA2" "txB1" 300 20 150 100 (Q2Qc (17 # 2)) 2 (Q2Qc (17 # 2)) 10.
Definition demo_c3 : Chimera :=
  demo_chimera "C3" "txA1" "txB1" 450 60 150 100 (Qc_of_Z 9) 3 (Qc_of_Z 9) 9.

Definition demo_blacklist : list line :=
  [ TextLine ("txA1" +:+ tab +:+ "450" +:+ tab +:+ "txB1" +:+ tab +:+ "60") ].

Definition demo_fs : filesystem :=
  {[ "in.txt"%string := [RecordLine demo_c1; RecordLine demo_c2; RecordLine demo_c3];
     "idx/gene_features.txt"%string := demo_genes;
     "fp.txt"%string := demo_blacklist ]}.

(** A distribution kept as its list of samples; the generator state is
    the list of deviations it will draw. *)
Definition in_range (lo hi x : Z) : bool := bool_decide (lo ≤ x ≤ hi).

Definition sample_percentile (samples : list Z) (p : Qc) : Z :=
  let sorted := merge_sort Z.le samples in
  let rank := (Qnum (Z.of_nat (length sorted) - 1 # 1) * Qnum p)
              / (100 * Z.pos (Qden p)) in
  default 0 (sorted !! Z.to_nat rank).

Definition sample_isize_lib : InsertSizeLib := {|
  InsertSizeDistribution := list Z;
  Samfile := list Z;
  RandomState := list Z;
  isize_n d := Z.of_nat (length d);
  from_bam bamfh min_isize max_isize max_samples :=
    take (Z.to_nat max_samples) (filter (λ x, in_range min_isize max_isize x) bamfh);
  from_random rng mean stdev min_isize max_isize n :=
    take (Z.to_nat n)
         (filter (λ x, in_range min_isize max_isize x) ((λ d, mean + d) <$> rng));
  isize_at_percentile := sample_percentile;
  ISIZE_MIN_SAMPLES := 4;
  ISIZE_MAX_SAMPLES := 6
|}.

Definition demo_config : RunConfig :=
  mkRunConfig 0 0 0 1000 200 (Qc_of_Z 40) (Qc_of_Z 99).

Definition demo_meta : gmap string stat :=
  {[ "aligned.bam"%string := mkStat 4096 (Qc_of_Z 100);
     "isize.txt"%string := mkStat 0 (Qc_of_Z 120) ]}.

(** ** Vocabulary of the statements *)

(** A computation that leaves every file as it was. *)
Definition read_only {A} (m : IO A) : Prop := ∀ fs, (m fs).1 = fs.

(** A computation that changes no file outside [W]. *)
Definition writes_within (W : string → Prop) {A} (m : IO A) : Prop :=
  ∀ fs p, ¬ W p → (m fs).1 !! p = fs !! p.

(** The names filed under the statistics [s] in a group. *)
Definition names_with (s : stats) (stats_list : list stats_info) : gset string :=
  list_to_set ((filter (λ i : stats_info, i.2 = s) stats_list).*1).

Section Ranking.
Context `{GeneLib}.
Variables (tx_cluster_map : gmap string Cluster) (tx_genome_map : TxGenomeMap).

(** The tuples appended under the key [k], in file order. *)
Definition group_infos (k : Cluster * Cluster * Coord * Coord)
    (records : list Chimera) : list stats_info :=
  (λ c, (name c, chimera_stats c))
    <$> filter (λ c, breakpoint_key tx_cluster_map tx_genome_map c = Some k)
               records.

(** No record with the breakpoint key of [c] ranks above [c]. *)
Definition top_ranked (records : list Chimera) (c : Chimera) : Prop :=
  Forall (λ c', breakpoint_key tx_cluster_map tx_genome_map c'
                = breakpoint_key tx_cluster_map tx_genome_map c →
                stats_le (chimera_stats c') (chimera_stats c))
         records.

Global Instance top_ranked_dec records c : Decision (top_ranked records c).
Proof. unfold top_ranked. apply _. Defined.

(** Some record bearing the name of [c] is top ranked in its group. *)
Definition name_selected (records : list Chimera) (c : Chimera) : Prop :=
  Exists (λ c0, name c0 = name c ∧ top_ranked records c0) records.

Global Instance name_selected_dec records c : Decision (name_selected records c).
Proof. unfold name_selected. apply _. Defined.
End Ranking.

(** The tables read off [demo_genes]. *)
Definition demo_tx_cluster_map : gmap string Z :=
  {[ "txA1"%string := 1; "txA2"%string := 1; "txB1"%string := 2 ]}.

Definition demo_tx_genome_map : gmap string Z :=
  {[ "txA1"%string := 1000; "txA2"%string := 1000; "txB1"%string := 5000 ]}.

(** A record with one spanning position and coverage between the two
    default thresholds. *)
Definition spanning_low_cov : Chimera :=
  demo_chimera "C9" "txA1" "txB1" 300 20 150 100 (Q2Qc (5 # 2)) 1 (Q2Qc (5 # 2)) 3.

(** Two isoform observations of one breakpoint with equal statistics. *)
Definition tied_c1 : Chimera :=
  demo_chimera "T1" "txA1" "txB1" 300 20 150 100 (Qc_of_Z 5) 1 (Qc_of_Z 5) 6.
Definition tied_c2 : Chimera :=
  demo_chimera "T2" "txA2" "txB1" 300 20 150 100 (Qc_of_Z 5) 1 (Qc_of_Z 5) 6.

(** A blacklisted record and a well covered record under one name. *)
Definition twin_blacklisted : Chimera :=
  demo_chimera "C3" "txA1" "txB1" 450 60 150 100 (Qc_of_Z 9) 3 (Qc_of_Z 9) 9.
Definition twin_good : Chimera :=
  demo_chimera "C3" "txA2" "txB1" 300 20 150 100 (Qc_of_Z 8) 2 (Qc_of_Z 8) 8.

Definition twin_fs : filesystem :=
  {[ "in.txt"%string := [RecordLine twin_blacklisted; RecordLine twin_good];
     "idx/gene_features.txt"%string := demo_genes;
     "fp.txt"%string := demo_blacklist ]}.

(** ** Validation of the command line and of the run configuration

    [check_fastq_files], [check_command_line_args] and
    [RunConfig.check_config] of [chimerascan_run.py]. *)

(** What [os.path.exists], [os.path.isfile] and [os.path.isdir] see of a
    path: absent from the map, a regular file, a directory, or something
    else (a device, a socket). *)
Inductive path_kind : Type := RegularFile | Directory | Special.

Global Instance path_kind_eq_dec : EqDecision path_kind.
Proof. solve_decision. Defined.

Definition os_path_exists (os : gmap string path_kind) (path : string) : bool :=
  bool_decide (is_Some (os !! path)).

Definition os_path_isfile (os : gmap string path_kind) (path : string) : bool :=
  bool_decide (os !! path = Some RegularFile).

Definition os_path_isdir (os : gmap string path_kind) (path : string) : bool :=
  bool_decide (os !! path = Some Directory).

(** The exceptions the validation can end with, besides the
    [SystemExit] of [parser.error]. *)
Inductive exception : Type := IndexError | ReadError | AttributeError.

Global Instance exception_eq_dec : EqDecision exception.
Proof. solve_decision. Defined.

(** How a call ends: it returns, [parser.error] prints the usage with a
    message and exits, or an exception propagates. *)
Inductive outcome (A : Type) : Type :=
  | Returned (x : A)
  | ParserError (msg : string)
  | Raised (e : exception).

Arguments Returned {A} x.
Arguments ParserError {A} msg.
Arguments Raised {A} e.

(** A computation together with the records it handed to [logging], in
    order. *)
Definition Logged (A : Type) : Type := (list log_record * outcome A)%type.

Global Instance Logged_ret : MRet Logged := λ A x, ([], Returned x).

Global Instance Logged_bind : MBind Logged := λ A B f m,
  match m.2 with
  | Returned x => (m.1 ++ (f x).1, (f x).2)
  | ParserError msg => (m.1, ParserError msg)
  | Raised e => (m.1, Raised e)
  end.

Definition logging (level : log_level) (msg : string) : Logged unit :=
  ([(level, msg)], Returned tt).

Definition parser_error {A} (msg : string) : Logged A := ([], ParserError msg).

Definition raise {A} (e : exception) : Logged A := ([], Raised e).

(** [l[i]] *)
Definition py_index {A} (l : list A) (i : nat) : Logged A :=
  match l !! i with
  | Some x => mret x
  | None => raise IndexError
  end.

(** [len(set(l))] *)
Definition len_set (l : list Z) : nat := size (list_to_set l : gset Z).

(** The interface of [chimerascan.lib.base] and [chimerascan.lib.config]
    as the validation uses it.  [get_read_length] opens a FASTQ file and
    may raise. *)
Class BaseLib : Type := {
  get_read_length : string → option Z;
  check_executable : string → bool;
  MIN_SEGMENT_LENGTH : Z;
  BOWTIE_INDEX_FILE : string;
  BASE_PROCESSORS : Z
}.

Definition NUM_POSITIONAL_ARGS : nat := 4.

Definition msg_mate_not_valid : string :=
  "mate '%d' fastq file '%s' is not valid".
Definition msg_checking_read_length : string :=
  "Checking read length for file %s".
Definition msg_read_length : string := "Read length for file %s: %d".
Definition msg_unequal : string :=
  "read lengths mate1=%d and mate2=%d are unequal".
Definition msg_segment_too_small : string :=
  "segment length (%d) too small (min is %d)".
Definition msg_segment_too_long : string :=
  "segment length (%d) longer than trimmed read length (%d)".
Definition msg_effective_length : string :=
  "Segmented alignment will use effective read length of %d".
Definition msg_incorrect_number : string :=
  "Incorrect number of command line arguments".
Definition msg_seed_too_long : string :=
  "seed length %d cannot be longer than read length".
Definition msg_output_not_dir : string :=
  "Output directory name '%s' exists and is not a valid directory".
Definition msg_bowtie_build_found : string :=
  "Checking for 'bowtie-build' binary... found".
Definition msg_bowtie_build_missing : string :=
  "bowtie-build binary not found or not executable".
Definition msg_bowtie_found : string := "Checking for 'bowtie' binary... found".
Definition msg_bowtie_missing : string :=
  "bowtie binary not found or not executable".
Definition msg_index_dir_found : string :=
  "Checking for chimerascan index directory... found".
Definition msg_index_dir_missing : string :=
  "chimerascan alignment index directory '%s' not valid".
Definition msg_index_file_found : string :=
  "Checking for bowtie index file... found".
Definition msg_index_file_missing : string :=
  "chimerascan bowtie index file '%s' invalid".
Definition msg_processors : string :=
  "Please specify >=2 processes using '-p' to allow program to run efficiently".
Definition msg_checking_file : string := "Checking file %s".
Definition msg_file_read_length : string := "File %s read length=%d".
Definition msg_unequal_config : string :=
  "Unequal read lengths mate1=%d and mate2=%d".

(** What [check_fastq_files] returns: [False], or a read length. *)
Inductive fastq_check : Type := ReturnedFalse | ReturnedLength (rlen : Z).

Section Validation.
Context `{OsLib} `{BaseLib}.

(** Lines 96-104: the loop of [check_fastq_files], with the list it
    appends to. *)
Fixpoint check_fastq_files_loop (os : gmap string path_kind)
    (read_lengths : list Z) (fastq_files : list string) : Logged (list Z) :=
  match fastq_files with
  | [] => mret read_lengths
  | fastq_file :: fastq_files' =>
      (if os_path_isfile os fastq_file then mret tt
       else parser_error msg_mate_not_valid);;
      logging DEBUG msg_checking_read_length;;
      rlen ← match get_read_length fastq_file with
             | Some rlen => mret rlen
             | None => raise ReadError
             end;
      logging DEBUG msg_read_length;;
      check_fastq_files_loop os (read_lengths ++ [rlen]) fastq_files'
  end.

Definition check_fastq_files (os : gmap string path_kind)
    (fastq_files : list string) (segment_length trim5 trim3 : Z)
    : Logged fastq_check :=
  read_lengths ← check_fastq_files_loop os [] fastq_files;
  if bool_decide (1 < len_set read_lengths)%nat then
    logging ERROR msg_unequal;;
    mret ReturnedFalse
  else
    rlen ← py_index read_lengths 0;
    let trimmed_rlen := rlen - trim5 - trim3 in
    (if bool_decide (segment_length < MIN_SEGMENT_LENGTH)
     then parser_error msg_segment_too_small else mret tt);;
    (if bool_decide (trimmed_rlen < segment_length)
     then parser_error msg_segment_too_long else mret tt);;
    logging DEBUG msg_effective_length;;
    rlen0 ← py_index read_lengths 0;
    mret (ReturnedLength rlen0).

(** Lines 133-142: the loop of [check_command_line_args], which tests
    [args[0]] for each FASTQ file. *)
Fixpoint check_command_line_args_loop (os : gmap string path_kind)
    (args0 : string) (read_lengths : list Z) (fastq_files : list string)
    : Logged (list Z) :=
  match fastq_files with
  | [] => mret read_lengths
  | fastq_file :: fastq_files' =>
      (if os_path_isfile os args0 then mret tt
       else parser_error msg_mate_not_valid);;
      logging DEBUG msg_checking_read_length;;
      rlen ← match get_read_length fastq_file with
             | Some rlen => mret rlen
             | None => raise ReadError
             end;
      logging DEBUG msg_read_length;;
      check_command_line_args_loop os args0 (read_lengths ++ [rlen])
                                   fastq_files'
  end.

(** [check_command_line_args(options, args, parser)], with the option
    values it reads as arguments. *)
Definition check_command_line_args (os : gmap string path_kind)
    (segment_length trim5 trim3 : Z) (bowtie_path : string)
    (num_processors : Z) (args : list string) : Logged unit :=
  (if bool_decide (length args < NUM_POSITIONAL_ARGS)%nat
   then parser_error msg_incorrect_number else mret tt);;
  index_dir ← py_index args 0;
  let fastq_files := take 2 (drop 1 args) in
  output_dir ← py_index args 3;
  read_lengths ← check_command_line_args_loop os index_dir [] fastq_files;
  (if bool_decide (1 < len_set read_lengths)%nat
   then parser_error msg_unequal else mret tt);;
  (if bool_decide (Exists (λ rlen, rlen < segment_length) read_lengths)
   then parser_error msg_seed_too_long else mret tt);;
  check_fastq_files os fastq_files segment_length trim5 trim3;;
  (if os_path_exists os output_dir && negb (os_path_isdir os output_dir)
   then parser_error msg_output_not_dir else mret tt);;
  (if check_executable (path_join bowtie_path "bowtie-build")
   then logging DEBUG msg_bowtie_build_found
   else parser_error msg_bowtie_build_missing);;
  (if check_executable (path_join bowtie_path "bowtie")
   then logging DEBUG msg_bowtie_found
   else parser_error msg_bowtie_missing);;
  (if os_path_isdir os index_dir
   then logging DEBUG msg_index_dir_found
   else parser_error msg_index_dir_missing);;
  let align_index_file := path_join index_dir BOWTIE_INDEX_FILE in
  (if os_path_isfile os align_index_file
   then logging DEBUG msg_index_file_found
   else parser_error msg_index_file_missing);;
  (if bool_decide (num_processors < BASE_PROCESSORS)
   then logging WARNING msg_processors else mret tt).

(** Lines 413-421: the loop of [check_config], with the flag it clears
    and the list it appends to. *)
Fixpoint check_config_loop (os : gmap string path_kind)
    (config_passed : bool) (read_lengths : list Z)
    (fastq_files : list string) : Logged (bool * list Z) :=
  match fastq_files with
  | [] => mret (config_passed, read_lengths)
  | fastq_file :: fastq_files' =>
      config_passed' ←
        (if os_path_isfile os fastq_file then mret config_passed
         else logging ERROR msg_mate_not_valid;; mret false);
      rlen ← match get_read_length fastq_file with
             | Some rlen => mret rlen
             | None => raise ReadError
             end;
      logging DEBUG msg_checking_file;;
      logging DEBUG msg_file_read_length;;
      check_config_loop os config_passed' (read_lengths ++ [rlen])
                        fastq_files'
  end.

(** [RunConfig.check_config(self)], with the attributes it reads as
    arguments. *)
Definition check_config (os : gmap string path_kind)
    (fastq_files : list string) (segment_length : Z)
    (output_dir bowtie_path index_dir : string) (num_processors : Z)
    : Logged bool :=
  '(config_passed, read_lengths) ← check_config_loop os true [] fastq_files;
  config_passed ←
    (if bool_decide (1 < len_set read_lengths)%nat
     then logging ERROR msg_unequal_config;; mret false
     else mret config_passed);
  config_passed ←
    (if bool_decide (Exists (λ rlen, rlen < segment_length) read_lengths)
     then logging ERROR msg_seed_too_long;; mret false
     else mret config_passed);
  config_passed ←
    (if os_path_exists os output_dir && negb (os_path_isdir os output_dir)
     then logging ERROR msg_output_not_dir;; mret false
     else mret config_passed);
  config_passed ←
    (if check_executable (path_join bowtie_path "bowtie-build")
     then logging DEBUG msg_bowtie_build_found;; mret config_passed
     else logging ERROR msg_bowtie_build_missing;; mret false);
  config_passed ←
    (if check_executable (path_join bowtie_path "bowtie")
     then logging DEBUG msg_bowtie_found;; mret config_passed
     else logging ERROR msg_bowtie_missing;; mret false);
  config_passed ←
    (if os_path_isdir os index_dir then
       logging DEBUG msg_index_dir_found;;
       let align_index_file := path_join index_dir BOWTIE_INDEX_FILE in
       if os_path_isfile os align_index_file
       then logging DEBUG msg_index_file_found;; mret config_passed
       else logging ERROR msg_index_file_missing;; mret false
     else logging ERROR msg_index_dir_missing;; mret false);
  (if bool_decide (num_processors < BASE_PROCESSORS)
   then logging WARNING msg_processors else mret tt);;
  mret config_passed.

End Validation.

(** ** Vocabulary of the validation statements *)

(** Some record of the log has the level [ERROR]. *)
Definition logs_error (log : list log_record) : Prop :=
  ∃ msg, (ERROR, msg) ∈ log.

(** A computation that hands on the flag [config_passed]: when it
    returns, the flag is cleared exactly if it was cleared before or an
    error was logged. *)
Definition tracks_errors (config_passed : bool) (m : Logged bool) : Prop :=
  ∀ b, m.2 = Returned b → (b = false ↔ config_passed = false ∨ logs_error m.1).

(** ** Command line over configuration file: [RunConfig.from_args] *)

(** The values an attribute of the configuration or an option of the
    command line holds. *)
Inductive py_value : Type :=
  | PyNone
  | PyBool (b : bool)
  | PyInt (n : Z)
  | PyFloat (x : Qc)
  | PyStr (s : string).

Global Instance py_value_eq_dec : EqDecision py_value.
Proof. solve_decision. Defined.

(** The number a value compares as, when it is one: [True == 1] and
    [3 == 3.0]. *)
Definition py_number (v : py_value) : option Qc :=
  match v with
  | PyBool b => Some (if b then Qc_of_Z 1 else Qc_of_Z 0)
  | PyInt n => Some (Qc_of_Z n)
  | PyFloat x => Some x
  | PyNone | PyStr _ => None
  end.

(** [v != w] *)
Definition py_ne (v w : py_value) : bool :=
  match py_number v, py_number w with
  | Some x, Some y => bool_decide (x ≠ y)
  | None, None => bool_decide (v ≠ w)
  | _, _ => true
  end.

(** The converters named in [RunConfig.attrs]. *)
Inductive attr_type : Type := attr_int | attr_str | attr_parse_bool | attr_float.

Global Instance attr_type_eq_dec : EqDecision attr_type.
Proof. solve_decision. Defined.

(** The constants of [chimerascan.lib] that the defaults refer to. *)
Class ConfigLib : Type := {
  SANGER_FORMAT : py_value;
  FR_UNSTRANDED : py_value;
  BREAKPOINT_HOMOLOGY_MISMATCHES : Z
}.

Definition DEFAULT_KEEP_TMP : bool := false.
Definition DEFAULT_BOWTIE_PATH : string := EmptyString.
Definition DEFAULT_BOWTIE_ARGS : string := "--best --strata".
Definition DEFAULT_MULTIHITS : Z := 100.
Definition DEFAULT_SEGMENT_LENGTH : Z := 25.
Definition DEFAULT_TRIM5 : Z := 0.
Definition DEFAULT_TRIM3 : Z := 0.
Definition DEFAULT_MIN_FRAG_LENGTH : Z := 0.
Definition DEFAULT_MAX_FRAG_LENGTH : Z := 1000.
Definition DEFAULT_ISIZE_MEAN : Z := 200.
Definition DEFAULT_ISIZE_STDEV : Z := 40.
Definition DEFAULT_FILTER_ISIZE_PERCENTILE : Qc := Qc_of_Z 99.

(** A [RunConfig] object: the three required attributes, [None] until
    set, and the attributes named in [attrs], read and written with
    [getattr] and [setattr]. *)
Record RunConfigObject : Type := mkRunConfigObject {
  self_output_dir : option string;
  self_fastq_files : option (list string);
  self_index_dir : option string;
  self_attrs : gmap string py_value
}.

Definition msg_fastq_not_specified : string :=
  "fastq files not specified in config file or command line".
Definition msg_output_not_specified : string :=
  "output dir not specified in config file or command line".

(** [getattr(obj, attrname)] *)
Definition getattr (obj : gmap string py_value) (attrname : string)
    : Logged py_value :=
  match obj !! attrname with
  | Some v => mret v
  | None => raise AttributeError
  end.

Section FromArgs.
Context `{BaseLib} `{ConfigLib}.

Definition DEFAULT_NUM_PROCESSORS : Z := BASE_PROCESSORS.
Definition DEFAULT_FASTQ_QUAL_FORMAT : py_value := SANGER_FORMAT.
Definition DEFAULT_LIBRARY_TYPE : py_value := FR_UNSTRANDED.
Definition DEFAULT_HOMOLOGY_MISMATCHES : Z := BREAKPOINT_HOMOLOGY_MISMATCHES.

(** [RunConfig.attrs].  The two coverage defaults are the integers 3
    and 2, which compare as the numbers they are. *)
Definition attrs : list (string * attr_type * py_value) :=
  [ ("num_processors"%string, attr_int, PyInt DEFAULT_NUM_PROCESSORS);
    ("quals"%string, attr_str, DEFAULT_FASTQ_QUAL_FORMAT);
    ("keep_tmp"%string, attr_parse_bool, PyBool DEFAULT_KEEP_TMP);
    ("bowtie_path"%string, attr_str, PyStr DEFAULT_BOWTIE_PATH);
    ("bowtie_args"%string, attr_str, PyStr DEFAULT_BOWTIE_ARGS);
    ("multihits"%string, attr_int, PyInt DEFAULT_MULTIHITS);
    ("mismatches"%string, attr_int, PyInt DEFAULT_MISMATCHES);
    ("segment_length"%string, attr_int, PyInt DEFAULT_SEGMENT_LENGTH);
    ("trim5"%string, attr_int, PyInt DEFAULT_TRIM5);
    ("trim3"%string, attr_int, PyInt DEFAULT_TRIM3);
    ("min_fragment_length"%string, attr_int, PyInt DEFAULT_MIN_FRAG_LENGTH);
    ("max_fragment_length"%string, attr_int, PyInt DEFAULT_MAX_FRAG_LENGTH);
    ("library_type"%string, attr_str, DEFAULT_LIBRARY_TYPE);
    ("isize_mean"%string, attr_int, PyInt DEFAULT_ISIZE_MEAN);
    ("isize_stdev"%string, attr_float, PyInt DEFAULT_ISIZE_STDEV);
    ("homology_mismatches"%string, attr_int, PyInt DEFAULT_HOMOLOGY_MISMATCHES);
    ("anchor_min"%string, attr_int, PyInt DEFAULT_ANCHOR_MIN);
    ("anchor_length"%string, attr_int, PyInt DEFAULT_ANCHOR_LENGTH);
    ("anchor_mismatches"%string, attr_int, PyInt DEFAULT_ANCHOR_MISMATCHES);
    ("filter_cov_wo_spanning"%string, attr_float,
     PyFloat DEFAULT_COV_WITHOUT_SPANNING);
    ("filter_cov_w_spanning"%string, attr_float,
     PyFloat DEFAULT_COV_WITH_SPANNING);
    ("filter_isize_percentile"%string, attr_float,
     PyFloat DEFAULT_FILTER_ISIZE_PERCENTILE) ].

(** [RunConfig.__init__] *)
Definition RunConfig_init : RunConfigObject :=
  mkRunConfigObject None None None
    (foldl (λ obj a, <[a.1.1 := PyNone]> obj) ∅ attrs).

(** Lines 403-407: the loop over [attrs].  The option is read only when
    the attribute is not [None], as [or] evaluates its right operand
    only then. *)
Fixpoint from_args_loop (options obj : gmap string py_value)
    (attrs : list (string * attr_type * py_value))
    : Logged (gmap string py_value) :=
  match attrs with
  | [] => mret obj
  | (attrname, attrtype, attrdefault) :: attrs' =>
      current ← getattr obj attrname;
      override ←
        (if bool_decide (current = PyNone) then mret true
         else value ← getattr options attrname;
              mret (py_ne value attrdefault));
      obj' ←
        (if override : bool
         then value ← getattr options attrname;
              mret (<[attrname := value]> obj)
         else mret obj);
      from_args_loop options obj' attrs'
  end.

(** Lines 390-407 of [from_args]: what follows [parser.parse_args] and
    the reading of the configuration file, on the object [self] as it
    is by then, with the parsed [options] and the positional [args]. *)
Definition from_args (self : RunConfigObject)
    (options : gmap string py_value) (args : list string)
    : Logged RunConfigObject :=
  index_dir ←
    match self_index_dir self with
    | None => py_index args 0
    | Some index_dir => mret index_dir
    end;
  fastq_files ←
    match self_fastq_files self with
    | None =>
        (if bool_decide (length args < 2)%nat
         then parser_error msg_fastq_not_specified else mret tt);;
        mret (take 2 (drop 1 args))
    | Some fastq_files => mret fastq_files
    end;
  output_dir ←
    match self_output_dir self with
    | None =>
        (if bool_decide (length args < 3)%nat
         then parser_error msg_output_not_specified else mret tt);;
        py_index args 3
    | Some output_dir => mret output_dir
    end;
  obj ← from_args_loop options (self_attrs self) attrs;
  mret (mkRunConfigObject (Some output_dir) (Some fastq_files)
                          (Some index_dir) obj).

End FromArgs.

(** ** Vocabulary of the text statements *)

(** No character of [s] is white space. *)
Fixpoint no_space (s : string) : bool :=
  match s with
  | EmptyString => true
  | String a s' => negb (is_space a) && no_space s'
  end.

(** Every character of [s] is white space. *)
Fixpoint all_space (s : string) : bool :=
  match s with
  | EmptyString => true
  | String a s' => is_space a && all_space s'
  end.

(** No character of [s] is a tab. *)
Fixpoint no_tab (s : string) : bool :=
  match s with
  | EmptyString => true
  | String a s' => negb (is_tab a) && no_tab s'
  end.

(** ** A small host and a small command line *)

Definition newline : string := String (ascii_of_N 10) EmptyString.

(** An input file without records. *)
Definition empty_input_fs : filesystem :=
  {[ "in.txt"%string := [];
     "idx/gene_features.txt"%string := demo_genes ]}.

(** A blacklist that ends with a blank line. *)
Definition blank_line_fs : filesystem :=
  <[ "fp.txt"%string := demo_blacklist ++ [TextLine newline] ]> demo_fs.

(** Three files of a chain of stages, each newer than the one before. *)
Definition chain_meta : gmap string stat :=
  {[ "reads.fq"%string := mkStat 900 (Qc_of_Z 10);
     "aligned.bam"%string := mkStat 4096 (Qc_of_Z 100);
     "isize.txt"%string := mkStat 120 (Qc_of_Z 120) ]}.

Definition demo_read_lengths : gmap string Z :=
  {[ "r1.fq"%string := 50; "r2.fq"%string := 50; "short.fq"%string := 36 ]}.

Definition demo_base_lib : BaseLib := {|
  get_read_length path := demo_read_lengths !! path;
  check_executable path :=
    bool_decide (path ∈ ["/opt/bowtie/bowtie"%string;
                         "/opt/bowtie/bowtie-build"%string]);
  MIN_SEGMENT_LENGTH := 20;
  BOWTIE_INDEX_FILE := "align_index.1.ebwt";
  BASE_PROCESSORS := 2
|}.

Definition demo_config_lib : ConfigLib := {|
  SANGER_FORMAT := PyStr "sanger";
  FR_UNSTRANDED := PyStr "fr-unstranded";
  BREAKPOINT_HOMOLOGY_MISMATCHES := 2
|}.

Definition demo_os : gmap string path_kind :=
  {[ "r1.fq"%string := RegularFile;
     "r2.fq"%string := RegularFile;
     "short.fq"%string := RegularFile;
     "idx"%string := Directory;
     "idx/align_index.1.ebwt"%string := RegularFile;
     "out"%string := Directory ]}.

(** Every option at its default, but the segment length. *)
Definition demo_options : gmap string py_value :=
  <[ "segment_length"%string := PyInt 30 ]>
    (list_to_map
       ((λ a : string * attr_type * py_value, (a.1.1, a.2))
          <$> attrs (H := demo_base_lib) (H0 := demo_config_lib))).

(** An object as a configuration file leaves it: every attribute set,
    five bases trimmed from the 5' end. *)
Definition demo_self : RunConfigObject :=
  mkRunConfigObject (Some "out"%string) (Some ["r1.fq"%string; "r2.fq"%string])
    (Some "idx"%string)
    (<[ "trim5"%string := PyInt 5 ]>
       (list_to_map
          ((λ a : string * attr_type * py_value, (a.1.1, a.2))
             <$> attrs (H := demo_base_lib) (H0 := demo_config_lib)))).

(** What [from_args] makes of it. *)
Definition demo_merged : RunConfigObject :=
  match (from_args (H := demo_base_lib) (H0 := demo_config_lib)
           demo_self demo_options []).2 with
  | Returned self' => self'
  | _ => demo_self
  end.

(** * Properties *)

(** Closed decidable facts are settled by evaluation. *)
Ltac by_compute := apply (bool_decide_unpack _); vm_compute; exact I.

(** * Per-record filters *)

Lemma filter_weighted_frags_true (c : Chimera) (threshold : Qc) :
  filter_weighted_frags c threshold = true
  ↔ (threshold ≤ get_weighted_unique_frags c)%Qc.
Proof. unfold filter_weighted_frags. apply bool_decide_eq_true. Qed.

Lemma filter_weighted_frags_same_coverage (c1 c2 : Chimera) (threshold : Qc) :
  get_weighted_unique_frags c1 = get_weighted_unique_frags c2 →
  filter_weighted_frags c1 threshold = filter_weighted_frags c2 threshold.
Proof. unfold filter_weighted_frags. by intros ->. Qed.

(** C1.  The coverage filter is to use a lower threshold for a record with
    at least one spanning read and a higher one otherwise.  The code compares
    the weighted unique-fragment count with the one threshold it is given
    and never looks at the spanning reads: a record with one spanning
    position and coverage 5/2 passes the rule of the specification under
    the default thresholds 2 and 3, and is rejected by
    [filter_weighted_frags] at the threshold 3. *)
Theorem filter_weighted_frags_one_threshold :
  get_weighted_unique_frags spanning_low_cov = Q2Qc (5 # 2)
  ∧ has_spanning spanning_low_cov = true
  ∧ coverage_rule_of_spec DEFAULT_COV_WITH_SPANNING DEFAULT_COV_WITHOUT_SPANNING
      spanning_low_cov = true
  ∧ filter_weighted_frags spanning_low_cov DEFAULT_COV_WITHOUT_SPANNING = false.
Proof. repeat split; by vm_compute. Qed.

(** No single threshold reproduces the two-threshold rule. *)
Lemma no_single_threshold (cov_w cov_wo threshold : Qc) :
  (cov_w < cov_wo)%Qc →
  ∃ c, filter_weighted_frags c threshold ≠ coverage_rule_of_spec cov_w cov_wo c.
Proof.
  intros Hlt. destruct (decide (threshold ≤ cov_w)%Qc) as [Hle|Hgt].
  - exists (mkChimera "" (mkPartner "" 0 0 0) (mkPartner "" 0 0 0) cov_w 0 cov_w 0).
    unfold filter_weighted_frags, coverage_rule_of_spec, has_spanning; simpl.
    rewrite (bool_decide_eq_true_2 _ Hle).
    rewrite (bool_decide_eq_false_2 (cov_wo ≤ cov_w)%Qc); [done|].
    by apply Qclt_not_le.
  - exists (mkChimera "" (mkPartner "" 0 0 0) (mkPartner "" 0 0 0) cov_w 1 cov_w 0).
    unfold filter_weighted_frags, coverage_rule_of_spec, has_spanning; simpl.
    rewrite (bool_decide_eq_false_2 _ Hgt).
    rewrite (bool_decide_eq_true_2 (cov_w ≤ cov_w)%Qc); [done|]. apply Qcle_refl.
Qed.

(** C4.  For a positive [max_isize], taken by the driver from the
    configured percentile of the insert-size distribution, a chimera is
    rejected exactly when the inner distance of its 5' or of its 3' partner
    exceeds [max_isize]; an inner distance of 1500 is rejected at 1200 and
    accepted at 1600. *)
Theorem filter_inner_dist_rejects (c : Chimera) (max_isize : Z) :
  0 < max_isize →
  (filter_inner_dist c max_isize = false
   ↔ max_isize < inner_dist (partner5p c) ∨ max_isize < inner_dist (partner3p c))
  ∧ (max_isize = 1200 →
     inner_dist (partner5p c) = 1500 ∨ inner_dist (partner3p c) = 1500 →
     filter_inner_dist c max_isize = false)
  ∧ (max_isize = 1600 →
     Z.max (inner_dist (partner5p c)) (inner_dist (partner3p c)) = 1500 →
     filter_inner_dist c max_isize = true).
Proof.
  intros Hpos. unfold filter_inner_dist.
  repeat case_bool_decide; split_and!; try split; intros; try done; lia.
Qed.

Lemma filter_inner_dist_rejects_witness :
  filter_inner_dist demo_c1 140 = false
  ∧ filter_inner_dist (demo_chimera "C" "a" "b" 1 1 1500 30 1 0 1 1) 1200 = false
  ∧ filter_inner_dist (demo_chimera "C" "a" "b" 1 1 1500 30 1 0 1 1) 1600 = true.
Proof.
  split_and!.
  - destruct (filter_inner_dist_rejects demo_c1 140) as [H _]; [lia|].
    apply H. left. vm_compute. reflexivity.
  - destruct (filter_inner_dist_rejects
                (demo_chimera "C" "a" "b" 1 1 1500 30 1 0 1 1) 1200)
      as (_ & H & _); [lia|].
    apply H; [reflexivity|]. left. reflexivity.
  - destruct (filter_inner_dist_rejects
                (demo_chimera "C" "a" "b" 1 1 1500 30 1 0 1 1) 1600)
      as (_ & _ & H); [lia|].
    apply H; reflexivity.
Defined.

(** C10.  For [max_isize <= 0] the inner-distance filter is disabled: it
    returns [True] whatever the inner distances of the partners. *)
Theorem filter_inner_dist_disabled (c : Chimera) (max_isize : Z) :
  max_isize ≤ 0 → filter_inner_dist c max_isize = true.
Proof. intros Hle. unfold filter_inner_dist. by rewrite bool_decide_eq_true_2. Qed.

Lemma filter_inner_dist_disabled_witness :
  filter_inner_dist (demo_chimera "C" "a" "b" 1 1 1500000 3000000 1 0 1 1) 0 = true
  ∧ filter_inner_dist (demo_chimera "C" "a" "b" 1 1 1500000 3000000 1 0 1 1) (-5) = true.
Proof. split; apply filter_inner_dist_disabled; lia. Defined.

(** C5.  A realigned read is accepted as spanning evidence only if both
    anchors reach [anchor_min]; with a shorter anchor below [anchor_length]
    its mismatches must not exceed [anchor_mismatches], and from
    [anchor_length] on only the global mismatch budget decides.  Anchor 3
    under [anchor_min = 4] is rejected, anchor 6 with one mismatch under
    [anchor_length = 8] and [anchor_mismatches = 0] is rejected, anchor 10
    with one mismatch is accepted. *)
Theorem spanning_read_anchor_rule
    (anchor_min anchor_length anchor_mismatches mismatches : Z) (r : SpanningRead) :
  (spanning_read_accepted anchor_min anchor_length anchor_mismatches mismatches r = true →
     anchor_min ≤ left_anchor_bp r ∧ anchor_min ≤ right_anchor_bp r
     ∧ (shorter_anchor r < anchor_length → read_mismatches r ≤ anchor_mismatches)
     ∧ read_mismatches r ≤ mismatches)
  ∧ (anchor_min ≤ shorter_anchor r → anchor_length ≤ shorter_anchor r →
     (spanning_read_accepted anchor_min anchor_length anchor_mismatches mismatches r = true
      ↔ read_mismatches r ≤ mismatches))
  ∧ (shorter_anchor r = 3 →
     spanning_read_accepted 4 anchor_length anchor_mismatches mismatches r = false)
  ∧ (shorter_anchor r = 6 → read_mismatches r = 1 →
     spanning_read_accepted anchor_min 8 0 mismatches r = false)
  ∧ (shorter_anchor r = 10 → read_mismatches r = 1 → 1 ≤ mismatches →
     spanning_read_accepted DEFAULT_ANCHOR_MIN DEFAULT_ANCHOR_LENGTH
       DEFAULT_ANCHOR_MISMATCHES mismatches r = true).
Proof.
  unfold spanning_read_accepted, shorter_anchor, DEFAULT_ANCHOR_MIN,
    DEFAULT_ANCHOR_LENGTH, DEFAULT_ANCHOR_MISMATCHES.
  split_and!; intros; repeat (case_bool_decide; simpl in *); try split; intros;
    try done; try lia.
Qed.

Lemma spanning_read_anchor_rule_witness :
  spanning_read_accepted 4 8 0 2 (mkSpanningRead 3 40 0) = false
  ∧ spanning_read_accepted 4 8 0 2 (mkSpanningRead 44 6 1) = false
  ∧ spanning_read_accepted 4 8 0 2 (mkSpanningRead 10 40 1) = true
  ∧ 4 ≤ 10.
Proof.
  split_and!.
  - destruct (spanning_read_anchor_rule 4 8 0 2 (mkSpanningRead 3 40 0))
      as (_ & _ & H & _).
    apply H. reflexivity.
  - destruct (spanning_read_anchor_rule 4 8 0 2 (mkSpanningRead 44 6 1))
      as (_ & _ & _ & H & _).
    apply H; reflexivity.
  - destruct (spanning_read_anchor_rule 4 8 0 2 (mkSpanningRead 10 40 1))
      as (_ & _ & _ & _ & H).
    apply H; [reflexivity|reflexivity|lia].
  - destruct (spanning_read_anchor_rule 4 8 0 2 (mkSpanningRead 10 40 1))
      as (H & _).
    apply H. reflexivity.
Defined.

Lemma up_to_date_true (meta : gmap string stat) (outfile infile : string) :
  up_to_date meta outfile infile = true
  ↔ ∃ st_in st_out,
      meta !! infile = Some st_in ∧ meta !! outfile = Some st_out
      ∧ (0 < st_size st_out)%N ∧ (st_mtime st_in ≤ st_mtime st_out)%Qc.
Proof.
  unfold up_to_date. split.
  - destruct (meta !! infile) as [st_in|]; [|done].
    destruct (meta !! outfile) as [st_out|]; [|done].
    case_bool_decide as Hsize; [done|]. intros Hm%bool_decide_eq_true.
    exists st_in, st_out. split_and!; [done|done|lia|done].
  - intros (st_in & st_out & -> & -> & Hsize & Hm).
    rewrite bool_decide_eq_false_2 by lia. by apply bool_decide_eq_true.
Qed.

(** C9.  [up_to_date(outfile, infile)] is [True] exactly when both files
    exist, [outfile] is not empty and is at least as recent as [infile];
    with either file missing or an empty [outfile] it is [False] and the
    guarded stage is run again. *)
Theorem up_to_date_iff (meta : gmap string stat) (outfile infile : string) :
  (up_to_date meta outfile infile = true
   ↔ ∃ st_in st_out,
       meta !! infile = Some st_in ∧ meta !! outfile = Some st_out
       ∧ (0 < st_size st_out)%N ∧ (st_mtime st_in ≤ st_mtime st_out)%Qc)
  ∧ (meta !! infile = None ∨ meta !! outfile = None
     ∨ st_size <$> meta !! outfile = Some 0%N →
     up_to_date meta outfile infile = false
     ∧ stage_guard meta outfile infile = Rerun).
Proof.
  split; [apply up_to_date_true|].
  intros Hmiss.
  assert (up_to_date meta outfile infile = false) as Hfalse.
  { apply not_true_is_false. intros (st_in & st_out & Hin & Hout & Hsize & _)%up_to_date_true.
    rewrite Hin, Hout in Hmiss. simpl in Hmiss.
    destruct Hmiss as [?|[?|[=Hz]]]; try done. lia. }
  unfold stage_guard. by rewrite Hfalse.
Qed.

Lemma up_to_date_iff_witness :
  up_to_date demo_meta "isize.txt" "aligned.bam" = false
  ∧ stage_guard demo_meta "isize.txt" "aligned.bam" = Rerun
  ∧ stage_guard demo_meta "filtered.txt" "aligned.bam" = Rerun.
Proof.
  destruct (up_to_date_iff demo_meta "isize.txt" "aligned.bam") as [_ H].
  destruct (up_to_date_iff demo_meta "filtered.txt" "aligned.bam") as [_ H'].
  split_and!.
  - apply H. right. right. reflexivity.
  - apply H. right. right. reflexivity.
  - apply H'. right. left. reflexivity.
Defined.

Section InsertSize.
Context `{InsertSizeLib}.

(** C6.  When profiling runs and the empirical sample has fewer than
    [ISIZE_MIN_SAMPLES] fragments, the stage hands on the synthetic
    distribution drawn from the configured mean and standard deviation
    within the configured fragment-length range, logs a warning and no
    error, stores that distribution, and the filter stage gets its
    percentile from it. *)
Theorem profile_insert_size_fallback (runconfig : RunConfig)
    (original_read_length : Z) (meta : gmap string stat)
    (files : gmap string InsertSizeDistribution) (bamfh : Samfile)
    (rng : RandomState) (isize_dist_file aligned_bam_file : string) :
  up_to_date meta isize_dist_file aligned_bam_file = false →
  isize_n (from_bam bamfh
             (Z.max (min_fragment_length runconfig)
                    (original_read_length - trim5 runconfig - trim3 runconfig))
             (max_fragment_length runconfig) ISIZE_MAX_SAMPLES)
    < ISIZE_MIN_SAMPLES →
  let out := profile_insert_size runconfig original_read_length meta files
               bamfh rng isize_dist_file aligned_bam_file in
  let synthetic := from_random rng (isize_mean runconfig) (isize_stdev runconfig)
                     (min_fragment_length runconfig)
                     (max_fragment_length runconfig) ISIZE_MAX_SAMPLES in
  isize_dist out = Some synthetic
  ∧ (WARNING, msg_not_enough) ∈ isize_log out
  ∧ isize_files out !! isize_dist_file = Some synthetic
  ∧ (∀ msg, (ERROR, msg) ∉ isize_log out)
  ∧ ∃ max_isize, filter_max_isize runconfig <$> isize_dist out = Some max_isize.
Proof.
  intros Hstale Hfew out synthetic. subst out. unfold profile_insert_size.
  rewrite Hstale. rewrite bool_decide_eq_true_2 by done. simpl.
  split_and!.
  - done.
  - right. by left.
  - by rewrite lookup_insert_eq.
  - intros msg Hin. repeat (apply elem_of_cons in Hin as [?|Hin]; [congruence|]).
    by apply elem_of_nil in Hin.
  - eauto.
Qed.
End InsertSize.

Lemma profile_insert_size_fallback_witness :
  isize_dist (profile_insert_size (H := sample_isize_lib) demo_config 50 demo_meta ∅
                [180; 220] [10; -20; 900; 30; 0; 5; -7; -300]
                "isize.txt" "aligned.bam")
  = Some [210; 180; 230; 200; 205; 193].
Proof.
  destruct (profile_insert_size_fallback (H := sample_isize_lib) demo_config 50
              demo_meta ∅ [180; 220] [10; -20; 900; 30; 0; 5; -7; -300]
              "isize.txt" "aligned.bam") as [Hd _].
  - reflexivity.
  - vm_compute. reflexivity.
  - rewrite Hd. vm_compute. reflexivity.
Defined.

(** * The order on statistics *)

Lemma stats_le_refl (s : stats) : stats_le s s.
Proof. unfold stats_le. right. split; [done|]. right. split; [done|lia]. Qed.

Lemma stats_le_trans (s t u : stats) : stats_le s t → stats_le t u → stats_le s u.
Proof.
  unfold stats_le.
  intros [H1|[E1 [H1|[F1 H1]]]] [H2|[E2 [H2|[F2 H2]]]];
    try (left; lia); right; (split; [congruence|]).
  - left. by apply Qclt_trans with (t.1.2).
  - left. by rewrite <- F2.
  - left. by rewrite F1.
  - right. split; [congruence|lia].
Qed.

Lemma stats_le_total (s t : stats) : stats_le s t ∨ stats_le t s.
Proof.
  unfold stats_le.
  destruct (Z.lt_trichotomy s.1.1 t.1.1) as [?|[E|?]]; [left; by left| |right; by left].
  destruct (Qclt_le_dec s.1.2 t.1.2) as [?|Hle]; [left; right; by eauto|].
  destruct (Qcle_lt_or_eq _ _ Hle) as [?|F]; [right; right; by eauto|].
  destruct (Z.le_ge_cases s.2 t.2); [left|right]; right; (split; [done|]); right; done.
Qed.

Lemma stats_le_antisym (s t : stats) : stats_le s t → stats_le t s → s = t.
Proof.
  destruct s as [[a1 b1] c1], t as [[a2 b2] c2]. unfold stats_le; simpl.
  intros [H1|[E1 [H1|[F1 H1]]]] [H2|[E2 [H2|[F2 H2]]]]; try lia.
  - destruct (Qclt_not_le _ _ H1). by apply Qclt_le_weak.
  - subst. by destruct (Qclt_not_eq _ _ H1).
  - subst. by destruct (Qclt_not_eq _ _ H2).
  - subst. f_equal. lia.
Qed.

Global Instance stats_ge_trans : Transitive stats_ge.
Proof. intros s t u ??. unfold stats_ge in *. by eapply stats_le_trans. Qed.

Global Instance stats_ge_total : Total stats_ge.
Proof. intros s t. unfold stats_ge. destruct (stats_le_total s t); auto. Qed.

(** [sorted(keys, reverse=True)[0]] is the greatest key. *)
Lemma head_sorted_keys (dec : ∀ s t, Decision (stats_ge s t))
    (keys : list stats) (k : stats) :
  head (merge_sort stats_ge keys) = Some k →
  k ∈ keys ∧ ∀ s, s ∈ keys → stats_le s k.
Proof.
  intros Hhd.
  pose proof (StronglySorted_merge_sort stats_ge keys) as Hsorted.
  pose proof (merge_sort_Permutation stats_ge keys) as Hperm.
  destruct (merge_sort stats_ge keys) as [|k' sorted]; simplify_eq/=.
  split.
  - rewrite <- Hperm. by left.
  - intros s. rewrite <- Hperm. intros [->|Hs]%elem_of_cons; [apply stats_le_refl|].
    apply StronglySorted_inv in Hsorted as [_ Hall].
    rewrite Forall_forall in Hall. by apply Hall.
Qed.

Lemma head_sorted_keys_is_Some (dec : ∀ s t, Decision (stats_ge s t))
    (keys : list stats) :
  keys ≠ [] → is_Some (head (merge_sort stats_ge keys)).
Proof.
  intros Hne. pose proof (merge_sort_Permutation stats_ge keys) as Hperm.
  destruct (merge_sort stats_ge keys); [|by eexists].
  symmetry in Hperm. by apply Permutation_nil_r in Hperm.
Qed.

(** * Indexing the names of a group by statistics *)

Lemma elem_of_names_with (n : string) (s : stats) (stats_list : list stats_info) :
  n ∈ names_with s stats_list ↔ (n, s) ∈ stats_list.
Proof.
  unfold names_with. rewrite elem_of_list_to_set, list_elem_of_fmap. split.
  - intros ([n' s'] & -> & [? ?]%list_elem_of_filter). by simplify_eq/=.
  - intros Hin. exists (n, s). split; [done|]. by apply list_elem_of_filter.
Qed.

Lemma elem_of_stats_column (s : stats) (stats_list : list stats_info) :
  s ∈ stats_list.*2 ↔ ∃ n, (n, s) ∈ stats_list.
Proof.
  rewrite list_elem_of_fmap. split.
  - intros ([n s'] & -> & Hin). by exists n.
  - intros [n Hin]. by exists (n, s).
Qed.

Lemma index_fold_lookup (stats_list : list stats_info)
    (stats_dict : gmap stats (gset string)) (s : stats) :
  foldl index_step stats_dict stats_list !! s
  = if decide (s ∈ stats_list.*2)
    then Some (default ∅ (stats_dict !! s) ∪ names_with s stats_list)
    else stats_dict !! s.
Proof.
  revert stats_dict. induction stats_list as [|[n' s'] l IH]; intros sd.
  - done.
  - rewrite fmap_cons. cbn [foldl snd]. rewrite IH. unfold index_step; cbn [fst snd].
    destruct (decide (s' = s)) as [->|Hne].
    + rewrite lookup_insert_eq; cbn [default].
      rewrite (decide_True (P := s ∈ s :: l.*2)) by (by left).
      case_decide as Hl; f_equal; apply set_eq; intros x; unfold id;
        rewrite !elem_of_union, !elem_of_names_with, elem_of_cons, elem_of_singleton.
      * split.
        -- intros [[?| ->]|?]; [by left|right; by left|right; by right].
        -- intros [?|[[= ->]|?]]; [left; by left|left; by right|by right].
      * split.
        -- intros [?| ->]; [by left|right; by left].
        -- intros [?|[[= ->]|?]]; [by left|by right|].
           destruct Hl. apply elem_of_stats_column. by exists x.
    + rewrite lookup_insert_ne by done.
      assert (∀ x, (x, s) ∈ (n', s') :: l ↔ (x, s) ∈ l) as Hiff.
      { intros x. rewrite elem_of_cons. split; [|by right].
        intros [[= _ ?]|?]; [congruence|done]. }
      destruct (decide (s ∈ l.*2)) as [Hl|Hl].
      * rewrite decide_True by (by right).
        f_equal. apply set_eq; intros x.
        by rewrite !elem_of_union, !elem_of_names_with, Hiff.
      * rewrite decide_False; [done|]. by intros [?|?]%elem_of_cons.
Qed.

Lemma index_names_lookup (stats_list : list stats_info) (s : stats) :
  index_names stats_list !! s
  = if decide (s ∈ stats_list.*2) then Some (names_with s stats_list) else None.
Proof.
  unfold index_names.
  rewrite index_fold_lookup, lookup_empty; simpl.
  case_decide; [|done]. cbn. by rewrite (left_id_L ∅ (∪)).
Qed.

Lemma index_names_dom (stats_list : list stats_info) (s : stats) :
  s ∈ elements (dom (index_names stats_list)) ↔ ∃ n, (n, s) ∈ stats_list.
Proof.
  rewrite elem_of_elements, elem_of_dom, index_names_lookup, <- elem_of_stats_column.
  case_decide; split; try done; by intros [? ?].
Qed.

(** The names selected in one group are those of the records whose
    statistics no record of the group exceeds. *)
Lemma highest_names_Some (stats_list : list stats_info) (names : gset string) :
  highest_names stats_list = Some names →
  ∀ n, n ∈ names
       ↔ ∃ s, (n, s) ∈ stats_list ∧ ∀ i, i ∈ stats_list → stats_le i.2 s.
Proof.
  unfold highest_names. intros Hh n.
  destruct (head _) as [k|] eqn:Hhd; simplify_eq/=.
  apply head_sorted_keys in Hhd as [Hk Hmax].
  rewrite index_names_lookup in Hh. case_decide as Hex; simplify_eq/=.
  rewrite elem_of_names_with. split.
  - intros Hn. exists k. split; [done|]. intros [n' s'] Hi. apply Hmax.
    apply index_names_dom. by exists n'.
  - intros (s & Hn & Hs).
    assert (s = k) as ->; [|done].
    apply stats_le_antisym.
    + apply Hmax, index_names_dom. by exists n.
    + apply elem_of_stats_column in Hex as [n' Hn']. apply (Hs (n', k) Hn').
Qed.

Lemma highest_names_is_Some (stats_list : list stats_info) :
  stats_list ≠ [] → is_Some (highest_names stats_list).
Proof.
  intros Hne. unfold highest_names. cbv zeta.
  destruct stats_list as [|[n s] l]; [done|].
  destruct (head _) as [k|] eqn:Hhd; simpl.
  - apply head_sorted_keys in Hhd as [Hk _].
    by apply elem_of_elements, elem_of_dom in Hk.
  - exfalso. apply (is_Some_None (A := stats)). rewrite <- Hhd.
    apply head_sorted_keys_is_Some.
    intros Hnil.
    assert (s ∈ elements (dom (index_names ((n, s) :: l)))) as Hs.
    { apply index_names_dom. exists n. by left. }
    rewrite Hnil in Hs. by apply elem_of_nil in Hs.
Qed.

Section IsoformProofs.
Context `{GeneLib}.
Variables (tx_cluster_map : gmap string Cluster) (tx_genome_map : TxGenomeMap).

Local Abbreviation key := (breakpoint_key tx_cluster_map tx_genome_map).
Local Abbreviation group := (group_infos tx_cluster_map tx_genome_map).
Local Abbreviation top := (top_ranked tx_cluster_map tx_genome_map).
Local Abbreviation selected := (name_selected tx_cluster_map tx_genome_map).
Local Abbreviation cluster := (cluster_chimeras tx_cluster_map tx_genome_map).
Local Abbreviation kept := (kept_names tx_cluster_map tx_genome_map).
Local Abbreviation collapse := (isoform_collapse tx_cluster_map tx_genome_map).

Lemma group_infos_cons_eq k c records :
  key c = Some k →
  group k (c :: records) = (name c, chimera_stats c) :: group k records.
Proof.
  intros Hk. unfold group_infos. by rewrite filter_cons_True.
Qed.

Lemma group_infos_cons_ne k c records :
  key c ≠ Some k → group k (c :: records) = group k records.
Proof.
  intros Hk. unfold group_infos. by rewrite filter_cons_False.
Qed.

Lemma elem_of_group_infos k records n s :
  (n, s) ∈ group k records
  ↔ ∃ c, c ∈ records ∧ key c = Some k ∧ name c = n ∧ chimera_stats c = s.
Proof.
  unfold group_infos. rewrite list_elem_of_fmap. split.
  - intros (c & [= -> ->] & [Hk Hc]%list_elem_of_filter). by exists c.
  - intros (c & Hc & Hk & <- & <-). exists c. split; [done|].
    by apply list_elem_of_filter.
Qed.

(** The dictionary built by the first loop. *)
Lemma cluster_chimeras_lookup records d0 d k :
  cluster d0 records = Some d →
  d !! k = if decide (group k records = []) then d0 !! k
           else Some (default [] (d0 !! k) ++ group k records).
Proof.
  revert d0. induction records as [|c records IH]; intros d0 Hd.
  - by simplify_eq/=.
  - cbn [cluster_chimeras] in Hd.
    destruct (key c) as [kc|] eqn:Hkc; simplify_eq/=.
    rewrite (IH _ Hd). destruct (decide (kc = k)) as [->|Hne].
    + rewrite group_infos_cons_eq by done. rewrite lookup_insert_eq.
      rewrite (decide_False (P := _ :: _ = [])) by done. cbn [default].
      unfold id. case_decide as Hg.
      * by rewrite Hg.
      * by rewrite <- (assoc_L (++)).
    + rewrite group_infos_cons_ne by congruence.
      by rewrite lookup_insert_ne.
Qed.

Lemma cluster_chimeras_keys records d0 d :
  cluster d0 records = Some d → Forall (λ c, is_Some (key c)) records.
Proof.
  revert d0. induction records as [|c records IH]; intros d0 Hd; [done|].
  cbn [cluster_chimeras] in Hd.
  destruct (key c) as [kc|] eqn:Hkc; simplify_eq/=.
  constructor; [by rewrite Hkc|]. by eapply IH.
Qed.

Lemma cluster_chimeras_is_Some records d0 :
  Forall (λ c, is_Some (key c)) records → is_Some (cluster d0 records).
Proof.
  revert d0. induction records as [|c records IH]; intros d0 Hall; [by eexists|].
  apply Forall_cons in Hall as [[kc Hkc] Hall].
  cbn [cluster_chimeras]. rewrite Hkc. simpl. by apply IH.
Qed.

(** The union taken by the second loop. *)
Lemma choose_highest_Some (d : gmap (Cluster * Cluster * Coord * Coord) (list stats_info))
    (names : gset string) :
  choose_highest d = Some names →
  ∀ n, n ∈ names
       ↔ ∃ k stats_list group_names,
           d !! k = Some stats_list
           ∧ highest_names stats_list = Some group_names ∧ n ∈ group_names.
Proof.
  unfold choose_highest. intros Hc n.
  destruct (mapM _ _) as [sets|] eqn:Hsets; simplify_eq/=.
  apply mapM_Some in Hsets. rewrite elem_of_union_list. split.
  - intros (X & HX & Hn).
    apply list_elem_of_lookup in HX as [i Hi].
    destruct (Forall2_lookup_r _ _ _ _ _ Hsets Hi) as (l & Hl & Hh).
    apply list_elem_of_lookup_2 in Hl.
    apply list_elem_of_fmap in Hl as ([k l'] & -> & Hkl).
    apply elem_of_map_to_list in Hkl. by exists k, l', X.
  - intros (k & l & X & Hk & Hh & Hn). exists X. split; [|done].
    assert (l ∈ (map_to_list d).*2) as Hl.
    { apply list_elem_of_fmap. exists (k, l). split; [done|].
      by apply elem_of_map_to_list. }
    apply list_elem_of_lookup in Hl as [i Hi].
    destruct (Forall2_lookup_l _ _ _ _ _ Hsets Hi) as (X' & HX' & Hh').
    simplify_eq. by eapply list_elem_of_lookup_2.
Qed.

Lemma choose_highest_is_Some (d : gmap (Cluster * Cluster * Coord * Coord) (list stats_info)) :
  (∀ k stats_list, d !! k = Some stats_list → stats_list ≠ []) →
  is_Some (choose_highest d).
Proof.
  intros Hne. unfold choose_highest.
  destruct (mapM_is_Some_2 highest_names ((map_to_list d).*2)) as [sets ->];
    [|by eexists].
  apply Forall_forall. intros l ([k l'] & -> & Hkl)%list_elem_of_fmap.
  apply elem_of_map_to_list in Hkl. apply highest_names_is_Some. by eapply Hne.
Qed.

Lemma top_ranked_spec records c :
  top records c
  ↔ ∀ c', c' ∈ records → key c' = key c →
          stats_le (chimera_stats c') (chimera_stats c).
Proof. unfold top_ranked. by rewrite Forall_forall. Qed.

Lemma name_selected_spec records c :
  selected records c
  ↔ ∃ c0, c0 ∈ records ∧ name c0 = name c ∧ top records c0.
Proof. unfold name_selected. by rewrite Exists_exists. Qed.

(** The names returned by [get_highest_coverage_isoforms]. *)
Lemma kept_names_Some records names :
  kept records = Some names →
  ∀ n, n ∈ names ↔ ∃ c, c ∈ records ∧ name c = n ∧ top records c.
Proof.
  unfold kept_names. intros Hk n.
  destruct (cluster ∅ records) as [d|] eqn:Hd; simplify_eq/=.
  pose proof (cluster_chimeras_keys _ _ _ Hd) as Hkeys.
  rewrite Forall_forall in Hkeys.
  rewrite (choose_highest_Some _ _ Hk). split.
  - intros (k & l & X & Hl & Hh & Hn).
    rewrite (cluster_chimeras_lookup _ _ _ k Hd), lookup_empty in Hl.
    case_decide; simplify_eq/=.
    apply (highest_names_Some _ _ Hh) in Hn as (s & Hns & Hmax).
    apply elem_of_group_infos in Hns as (c & Hc & Hkc & <- & <-).
    exists c. split_and!; [done|done|]. apply top_ranked_spec.
    intros c' Hc' Hkey. apply (Hmax (name c', chimera_stats c')).
    apply elem_of_group_infos. exists c'. split_and!; [done|congruence|done|done].
  - intros (c & Hc & <- & Htop).
    destruct (Hkeys c Hc) as [k Hkc].
    assert ((name c, chimera_stats c) ∈ group k records) as Hin.
    { apply elem_of_group_infos. by exists c. }
    assert (group k records ≠ []) as Hne.
    { intros Hnil. rewrite Hnil in Hin. by apply elem_of_nil in Hin. }
    destruct (highest_names_is_Some _ Hne) as [X HX].
    exists k, (group k records), X. split_and!; [|done|].
    + rewrite (cluster_chimeras_lookup _ _ _ k Hd), lookup_empty.
      by rewrite decide_False.
    + apply (highest_names_Some _ _ HX). exists (chimera_stats c).
      split; [done|]. intros [n' s'] (c' & Hc' & Hkc' & <- & <-)%elem_of_group_infos.
      apply (proj1 (top_ranked_spec _ _) Htop); [done|congruence].
Qed.

Lemma kept_names_keys records names :
  kept records = Some names → Forall (λ c, is_Some (key c)) records.
Proof.
  unfold kept_names. intros Hk.
  destruct (cluster ∅ records) as [d|] eqn:Hd; simplify_eq/=.
  by eapply cluster_chimeras_keys.
Qed.

Lemma kept_names_is_Some records :
  Forall (λ c, is_Some (key c)) records → is_Some (kept records).
Proof.
  intros Hkeys. unfold kept_names.
  destruct (cluster_chimeras_is_Some records ∅ Hkeys) as [d Hd].
  rewrite Hd. simpl. apply choose_highest_is_Some. intros k l Hl.
  rewrite (cluster_chimeras_lookup _ _ _ k Hd), lookup_empty in Hl.
  case_decide; by simplify_eq/=.
Qed.

Lemma keep_selected_spec records names :
  kept records = Some names →
  keep_selected names records = filter (selected records) records.
Proof.
  intros Hk. unfold keep_selected. apply list_filter_iff. intros c.
  rewrite (kept_names_Some _ _ Hk), name_selected_spec.
  split; intros (c0 & ? & ? & ?); by exists c0.
Qed.
End IsoformProofs.

Lemma filter_all {A} (P : A → Prop) `{!∀ x, Decision (P x)} (l : list A) :
  Forall P l → filter P l = l.
Proof.
  induction 1 as [|x l Hx _ IH]; [done|].
  by rewrite filter_cons_True, IH.
Qed.

Lemma filter_ext_elem {A} (P Q : A → Prop)
    `{!∀ x, Decision (P x), !∀ x, Decision (Q x)} (l : list A) :
  (∀ x, x ∈ l → P x ↔ Q x) → filter P l = filter Q l.
Proof.
  induction l as [|x l IH]; intros Hiff; [done|].
  assert (filter P l = filter Q l) as Hl.
  { apply IH. intros y Hy. apply Hiff. by right. }
  destruct (decide (P x)) as [HP|HP].
  - rewrite !filter_cons_True, Hl; [done| |done]. apply Hiff; [by left|done].
  - rewrite !filter_cons_False, Hl; [done| |done].
    intros HQ. apply HP. apply Hiff; [by left|done].
Qed.

Lemma NoDup_fmap_eq {A B} (f : A → B) (l : list A) (x y : A) :
  NoDup (f <$> l) → x ∈ l → y ∈ l → f x = f y → x = y.
Proof.
  induction l as [|z l IH]; [by intros _ ?%elem_of_nil|].
  rewrite fmap_cons, NoDup_cons.
  intros [Hz Hnd] [->|Hx]%elem_of_cons [->|Hy]%elem_of_cons Hf; [done| | |by apply IH].
  - destruct Hz. rewrite Hf. by apply list_elem_of_fmap_2.
  - destruct Hz. rewrite <- Hf. by apply list_elem_of_fmap_2.
Qed.

(** A non-empty list of records has one that none outranks. *)
Lemma exists_highest (l : list Chimera) :
  l ≠ [] →
  ∃ m, m ∈ l ∧ ∀ c, c ∈ l → stats_le (chimera_stats c) (chimera_stats m).
Proof.
  induction l as [|c l IH]; [done|]. intros _.
  destruct l as [|c' l'].
  - exists c. split; [by left|]. intros ? [->|[]%elem_of_nil]%elem_of_cons.
    apply stats_le_refl.
  - destruct IH as (m & Hm & Hmax); [done|].
    destruct (stats_le_total (chimera_stats c) (chimera_stats m)) as [Hle|Hle].
    + exists m. split; [by right|]. intros x [->|Hx]%elem_of_cons; [done|by apply Hmax].
    + exists c. split; [by left|]. intros x [->|Hx]%elem_of_cons.
      * apply stats_le_refl.
      * eapply stats_le_trans; [by apply Hmax|done].
Qed.

Section CollapseProofs.
Context `{GeneLib}.
Variables (tx_cluster_map : gmap string Cluster) (tx_genome_map : TxGenomeMap).

Local Abbreviation key := (breakpoint_key tx_cluster_map tx_genome_map).
Local Abbreviation top := (top_ranked tx_cluster_map tx_genome_map).
Local Abbreviation selected := (name_selected tx_cluster_map tx_genome_map).
Local Abbreviation kept := (kept_names tx_cluster_map tx_genome_map).
Local Abbreviation collapse := (isoform_collapse tx_cluster_map tx_genome_map).

Lemma exists_top_ranked records c :
  c ∈ records → ∃ m, m ∈ records ∧ key m = key c ∧ top records m.
Proof.
  intros Hc.
  destruct (exists_highest (filter (λ c', key c' = key c) records))
    as (m & [Hkm Hm]%list_elem_of_filter & Hmax).
  { intros Hnil. eapply (filter_nil_not_elem_of _ _ c) in Hnil; done. }
  exists m. split_and!; [done|done|]. apply top_ranked_spec.
  intros c' Hc' Hk. apply Hmax. apply list_elem_of_filter. split; [congruence|done].
Qed.

Lemma isoform_collapse_Some records out :
  collapse records = Some out → out = filter (selected records) records.
Proof.
  unfold isoform_collapse. intros Hc.
  destruct (kept records) as [names|] eqn:Hk; simplify_eq/=.
  by apply keep_selected_spec.
Qed.

Lemma isoform_collapse_is_Some records :
  Forall (λ c, is_Some (key c)) records → is_Some (collapse records).
Proof.
  intros Hkeys. unfold isoform_collapse.
  destruct (kept_names_is_Some _ _ _ Hkeys) as [names ->]. by eexists.
Qed.

Lemma selected_unique_names records c :
  NoDup (name <$> records) → c ∈ records →
  selected records c ↔ top records c.
Proof.
  intros Hnd Hc. rewrite name_selected_spec. split.
  - intros (c0 & Hc0 & Hn & Htop).
    by rewrite <- (NoDup_fmap_eq name records c0 c Hnd Hc0 Hc Hn).
  - intros Htop. by exists c.
Qed.

(** C2, amended.  On a record set with pairwise distinct names, the
    isoform-collapse pass keeps exactly the records that no record with
    the same breakpoint key outranks in (spanning positions, weighted
    coverage, fragments): every group keeps at least one record, and
    the records kept in one group all carry the same, highest,
    statistics. *)
Theorem isoform_collapse_keeps_top_ranked records out :
  NoDup (name <$> records) →
  isoform_collapse tx_cluster_map tx_genome_map records = Some out →
  (∀ c, c ∈ out
        ↔ c ∈ records ∧ top_ranked tx_cluster_map tx_genome_map records c)
  ∧ (∀ c, c ∈ records →
          ∃ m, m ∈ out
               ∧ breakpoint_key tx_cluster_map tx_genome_map m
                 = breakpoint_key tx_cluster_map tx_genome_map c)
  ∧ (∀ c c', c ∈ out → c' ∈ out →
             breakpoint_key tx_cluster_map tx_genome_map c
             = breakpoint_key tx_cluster_map tx_genome_map c' →
             chimera_stats c = chimera_stats c').
Proof.
  intros Hnd Hout. apply isoform_collapse_Some in Hout as ->.
  assert (∀ c, c ∈ filter (selected records) records ↔ c ∈ records ∧ top records c)
    as Hiff.
  { intros c. rewrite list_elem_of_filter. split.
    - intros [Hs Hc]. split; [done|]. by apply selected_unique_names.
    - intros [Hc Ht]. split; [|done]. by apply selected_unique_names. }
  split_and!; [done| |].
  - intros c Hc. destruct (exists_top_ranked records c Hc) as (m & Hm & Hk & Ht).
    exists m. split; [|done]. apply Hiff. done.
  - intros c c' [Hc Ht]%Hiff [Hc' Ht']%Hiff Hk.
    apply stats_le_antisym.
    + apply (proj1 (top_ranked_spec _ _ _ _) Ht'); done.
    + apply (proj1 (top_ranked_spec _ _ _ _) Ht); done.
Qed.

(** C7.  Isoform collapse is idempotent: collapsing the outcome of a
    collapse keeps every record. *)
Theorem isoform_collapse_idempotent records out :
  isoform_collapse tx_cluster_map tx_genome_map records = Some out →
  isoform_collapse tx_cluster_map tx_genome_map out = Some out.
Proof.
  unfold isoform_collapse. intros Hc.
  destruct (kept records) as [names|] eqn:Hk; simplify_eq/=.
  pose proof (kept_names_keys _ _ _ _ Hk) as Hkeys.
  assert (Forall (λ c, is_Some (key c)) (keep_selected names records)) as Hkeys'.
  { rewrite Forall_forall in Hkeys. apply Forall_forall.
    intros c [_ Hc]%list_elem_of_filter. by apply Hkeys. }
  destruct (kept_names_is_Some _ _ _ Hkeys') as [names' Hk'].
  rewrite Hk'. simpl. f_equal. unfold keep_selected at 1. apply filter_all.
  apply Forall_forall. intros c [Hn Hc]%list_elem_of_filter.
  apply (kept_names_Some _ _ _ _ Hk) in Hn as (c0 & Hc0 & Hn0 & Htop).
  apply (kept_names_Some _ _ _ _ Hk'). exists c0. split_and!; [|done|].
  - apply list_elem_of_filter. split; [|done].
    apply (kept_names_Some _ _ _ _ Hk). by exists c0.
  - apply top_ranked_spec. intros c' [_ Hc']%list_elem_of_filter Hkey.
    by apply (proj1 (top_ranked_spec _ _ _ _) Htop).
Qed.
End CollapseProofs.

Lemma isoform_collapse_idempotent_witness :
  isoform_collapse (H := table_gene_lib) demo_tx_cluster_map demo_tx_genome_map
    [demo_c2; demo_c3] = Some [demo_c2; demo_c3].
Proof.
  apply (isoform_collapse_idempotent (H := table_gene_lib) demo_tx_cluster_map
           demo_tx_genome_map [demo_c1; demo_c2; demo_c3]).
  vm_compute. reflexivity.
Defined.

Lemma isoform_collapse_keeps_top_ranked_witness :
  demo_c2 ∈ [demo_c2; demo_c3]
  ↔ demo_c2 ∈ [demo_c1; demo_c2; demo_c3]
    ∧ top_ranked (H := table_gene_lib) demo_tx_cluster_map demo_tx_genome_map
        [demo_c1; demo_c2; demo_c3] demo_c2.
Proof.
  apply (isoform_collapse_keeps_top_ranked (H := table_gene_lib)
           demo_tx_cluster_map demo_tx_genome_map [demo_c1; demo_c2; demo_c3]).
  - by_compute.
  - vm_compute. reflexivity.
Defined.

(** C2 as stated fails on a tie: two records of one group with equal
    statistics are both kept. *)
Lemma isoform_collapse_keeps_tied_records :
  isoform_collapse (H := table_gene_lib) demo_tx_cluster_map demo_tx_genome_map
    [tied_c1; tied_c2] = Some [tied_c1; tied_c2]
  ∧ breakpoint_key (H := table_gene_lib) demo_tx_cluster_map demo_tx_genome_map tied_c1
    = breakpoint_key (H := table_gene_lib) demo_tx_cluster_map demo_tx_genome_map tied_c2
  ∧ tied_c1 ≠ tied_c2.
Proof. split_and!; [by vm_compute|by vm_compute|discriminate]. Qed.

(** * File effects *)

Lemma bind_run {A B} (m : IO A) (f : A → IO B) (fs : filesystem) :
  (m ≫= f) fs
  = match m fs with
    | (fs1, Some x) => f x fs1
    | (fs1, None) => (fs1, None)
    end.
Proof. reflexivity. Qed.

Lemma read_only_ret {A} (x : A) : read_only (mret x).
Proof. done. Qed.

Lemma read_only_lift {A} (o : option A) : read_only (io_lift o).
Proof. done. Qed.

Lemma read_only_open_read path : read_only (open_read path).
Proof. done. Qed.

Lemma read_only_bind {A B} (m : IO A) (f : A → IO B) :
  read_only m → (∀ x, read_only (f x)) → read_only (m ≫= f).
Proof.
  intros Hm Hf fs. rewrite bind_run. specialize (Hm fs).
  destruct (m fs) as [fs1 [x|]]; simpl in *; subst; [apply Hf|done].
Qed.

Create HintDb io_frame discriminated.
#[local] Hint Resolve read_only_ret read_only_lift read_only_open_read : io_frame.
#[local] Hint Extern 2 (read_only (_ ≫= _)) =>
  apply read_only_bind; [|intros ?] : io_frame.

Lemma read_only_Chimera_parse path : read_only (Chimera_parse path).
Proof. unfold Chimera_parse. auto with io_frame. Qed.

Lemma read_only_read_false_pos_file filename :
  read_only (read_false_pos_file filename).
Proof. unfold read_false_pos_file. auto 10 with io_frame. Qed.

Lemma read_only_get_highest_coverage_isoforms `{GeneLib} input_file gene_file :
  read_only (get_highest_coverage_isoforms input_file gene_file).
Proof.
  unfold get_highest_coverage_isoforms.
  pose proof read_only_Chimera_parse. auto 20 with io_frame.
Qed.

Lemma writes_within_read_only W {A} (m : IO A) : read_only m → writes_within W m.
Proof. intros Hm fs p _. by rewrite Hm. Qed.

Lemma writes_within_bind W {A B} (m : IO A) (f : A → IO B) :
  writes_within W m → (∀ x, writes_within W (f x)) → writes_within W (m ≫= f).
Proof.
  intros Hm Hf fs p Hp. rewrite bind_run. specialize (Hm fs p Hp).
  destruct (m fs) as [fs1 [x|]]; simpl in *; [|done].
  by rewrite Hf.
Qed.

Lemma writes_within_open_write (W : string → Prop) path :
  W path → writes_within W (open_write path).
Proof.
  intros HW fs p Hp. unfold open_write; simpl.
  apply lookup_insert_ne. by intros ->.
Qed.

Lemma writes_within_print_lines (W : string → Prop) path ls :
  W path → writes_within W (print_lines path ls).
Proof.
  intros HW fs p Hp. unfold print_lines; simpl.
  apply lookup_insert_ne. by intros ->.
Qed.

Lemma writes_within_os_remove (W : string → Prop) path :
  W path → writes_within W (os_remove path).
Proof.
  intros HW fs p Hp. unfold os_remove.
  destruct (fs !! path); simpl; [|done].
  apply lookup_delete_ne. by intros ->.
Qed.

Section FilterStage.
Context `{GeneLib} `{OsLib}.

Lemma read_only_load_false_pos false_pos_file :
  read_only (load_false_pos false_pos_file).
Proof.
  destruct false_pos_file as [f|]; simpl; [|done].
  case_bool_decide; [done|]. apply read_only_read_false_pos_file.
Qed.

Lemma read_only_run {A} (m : IO A) fs : read_only m → m fs = (fs, (m fs).2).
Proof. intros Hm. specialize (Hm fs). destruct (m fs); simpl in *; by subst. Qed.

Lemma filter_chimeras_touches input_file output_file index_dir
    weighted_unique_frags max_isize false_pos_file fs p :
  p ≠ output_file →
  p ≠ make_temp_name fs (dirname output_file) ".txt" →
  (filter_chimeras input_file output_file index_dir weighted_unique_frags
     max_isize false_pos_file fs).1 !! p = fs !! p.
Proof.
  intros Hout Htmp. unfold filter_chimeras.
  rewrite bind_run, (read_only_run _ fs (read_only_load_false_pos _)).
  destruct (load_false_pos false_pos_file fs).2 as [false_pos_pairs|]; [|done].
  rewrite bind_run. unfold make_temp at 1. cbv zeta.
  set (tmp := make_temp_name fs (dirname output_file) ".txt") in *.
  set (W := λ q : string, q = tmp ∨ q = output_file).
  assert (¬ W p) as HW by (unfold W; tauto).
  transitivity (<[tmp := []]> fs !! p); [|by rewrite lookup_insert_ne].
  revert HW. generalize (<[tmp := []]> fs) p. change (writes_within W
    (open_write tmp;;
     records ← Chimera_parse input_file;
     print_lines tmp
       (RecordLine <$>
          filter (λ c, good weighted_unique_frags max_isize false_pos_pairs c)
                 records);;
     kept_chimeras ← get_highest_coverage_isoforms tmp
                       (path_join index_dir GENE_FEATURE_FILE);
     open_write output_file;;
     records' ← Chimera_parse input_file;
     print_lines output_file (RecordLine <$> keep_selected kept_chimeras records');;
     os_remove tmp;;
     mret JOB_SUCCESS)).
  assert (W tmp) as Wtmp by (by left).
  assert (W output_file) as Wout by (by right).
  repeat (apply writes_within_bind; [|intros ?]);
    eauto using writes_within_open_write, writes_within_print_lines,
      writes_within_os_remove, writes_within_read_only,
      read_only_Chimera_parse, read_only_get_highest_coverage_isoforms,
      read_only_ret, read_only_open_read, read_only_lift.
Qed.

Lemma Chimera_parse_run path fs :
  Chimera_parse path fs = (fs, fs !! path ≫= mapM as_record).
Proof.
  unfold Chimera_parse. rewrite bind_run. unfold open_read, io_lift.
  by destruct (fs !! path).
Qed.

Lemma get_highest_coverage_isoforms_run input_file gene_file fs :
  get_highest_coverage_isoforms input_file gene_file fs
  = (fs, gene_lines ← fs !! gene_file;
         tx_cluster_map ← build_tx_cluster_map gene_lines;
         tx_genome_map ← build_gene_to_genome_map gene_lines;
         records ← fs !! input_file ≫= mapM as_record;
         kept_names tx_cluster_map tx_genome_map records).
Proof.
  unfold get_highest_coverage_isoforms.
  rewrite bind_run. unfold open_read at 1.
  destruct (fs !! gene_file) as [gene_lines|] eqn:Hg; [|done]. simpl.
  rewrite bind_run. unfold io_lift at 1.
  destruct (build_tx_cluster_map gene_lines) as [tcm|]; [|done]. simpl.
  rewrite bind_run. unfold open_read at 1. rewrite Hg.
  rewrite bind_run. unfold io_lift at 1.
  destruct (build_gene_to_genome_map gene_lines) as [tgm|]; [|done]. simpl.
  rewrite bind_run, Chimera_parse_run.
  by destruct (fs !! input_file ≫= mapM as_record).
Qed.

Lemma mapM_as_record_RecordLine records :
  mapM as_record (RecordLine <$> records) = Some records.
Proof. by apply mapM_fmap_Some. Qed.

(** The run of [filter_chimeras] on an existing input file, step by step:
    where it may raise, what it has written by then, and what it leaves
    when it returns. *)
Lemma filter_chimeras_run input_file output_file index_dir
    weighted_unique_frags max_isize false_pos_file fs ls :
  fs !! input_file = Some ls →
  let tmp_file := make_temp_name fs (dirname output_file) ".txt" in
  filter_chimeras input_file output_file index_dir weighted_unique_frags
    max_isize false_pos_file fs
  = match (load_false_pos false_pos_file fs).2 with
    | None => (fs, None)
    | Some false_pos_pairs =>
        match mapM as_record ls with
        | None => (<[tmp_file := []]> fs, None)
        | Some records =>
            let passed :=
              filter (λ c, good weighted_unique_frags max_isize
                                false_pos_pairs c) records in
            let fs_tmp := <[tmp_file := RecordLine <$> passed]> fs in
            match gene_lines ← fs_tmp !! path_join index_dir GENE_FEATURE_FILE;
                  tx_cluster_map ← build_tx_cluster_map gene_lines;
                  tx_genome_map ← build_gene_to_genome_map gene_lines;
                  kept_names tx_cluster_map tx_genome_map passed with
            | None => (fs_tmp, None)
            | Some kept_chimeras =>
                (delete tmp_file
                   (<[output_file :=
                        RecordLine <$>
                          keep_selected kept_chimeras
                            (if decide (output_file = input_file) then []
                             else records)]> fs_tmp),
                 Some JOB_SUCCESS)
            end
        end
    end.
Proof.
  intros Hin tmp_file. unfold filter_chimeras.
  rewrite bind_run, (read_only_run _ fs (read_only_load_false_pos _)).
  destruct (load_false_pos false_pos_file fs).2 as [false_pos_pairs|]; [|done].
  rewrite bind_run. unfold make_temp at 1. cbv zeta. fold tmp_file.
  assert (tmp_file ≠ input_file) as Hne.
  { intros Heq. pose proof (make_temp_fresh fs (dirname output_file) ".txt") as Hf.
    fold tmp_file in Hf. congruence. }
  rewrite bind_run. unfold open_write at 1. rewrite insert_insert_eq.
  rewrite bind_run, Chimera_parse_run.
  rewrite lookup_insert_ne, Hin by done. simpl.
  destruct (mapM as_record ls) as [records|] eqn:Hrecords; [|done].
  rewrite bind_run. unfold print_lines at 1.
  rewrite lookup_insert_eq, insert_insert_eq. simpl.
  rewrite bind_run, get_highest_coverage_isoforms_run.
  rewrite lookup_insert_eq.
  destruct (_ !! path_join index_dir GENE_FEATURE_FILE) as [gene_lines|];
    [|done].
  simpl.
  destruct (build_tx_cluster_map gene_lines) as [tx_cluster_map|]; [|done].
  simpl.
  destruct (build_gene_to_genome_map gene_lines) as [tx_genome_map|]; [|done].
  simpl. rewrite mapM_as_record_RecordLine. simpl.
  destruct (kept_names _ _ _) as [kept_chimeras|] eqn:Hkept; [|done].
  rewrite bind_run. unfold open_write at 1.
  rewrite bind_run, Chimera_parse_run.
  destruct (decide (output_file = input_file)) as [->|Hoi].
  all: rewrite ?lookup_insert_eq, ?(lookup_insert_ne _ output_file input_file),
         ?(lookup_insert_ne _ tmp_file input_file), ?Hin by done.
  all: simpl; rewrite ?Hrecords; simpl.
  all: rewrite bind_run; unfold print_lines at 1.
  all: rewrite lookup_insert_eq, insert_insert_eq; simpl.
  all: rewrite bind_run; unfold os_remove at 1.
  all: match goal with
       | |- context [match ?o with Some _ => _ | None => _ end] =>
           destruct o as [tl|] eqn:Htl
       end.
  all: try done.
  all: exfalso; revert Htl; rewrite lookup_insert; case_decide; [done|].
  all: by rewrite ?lookup_insert_eq.
Qed.

(** What a run that returns has computed and written. *)
Lemma filter_chimeras_returns input_file output_file index_dir
    weighted_unique_frags max_isize false_pos_file fs fs' r ls :
  filter_chimeras input_file output_file index_dir weighted_unique_frags
    max_isize false_pos_file fs = (fs', Some r) →
  fs !! input_file = Some ls →
  let tmp_file := make_temp_name fs (dirname output_file) ".txt" in
  ∃ false_pos_pairs records tx_cluster_map tx_genome_map kept_chimeras,
    (load_false_pos false_pos_file fs).2 = Some false_pos_pairs
    ∧ mapM as_record ls = Some records
    ∧ kept_names tx_cluster_map tx_genome_map
        (filter (λ c, good weighted_unique_frags max_isize false_pos_pairs c)
                records) = Some kept_chimeras
    ∧ r = JOB_SUCCESS
    ∧ fs' = delete tmp_file
              (<[output_file :=
                   RecordLine <$>
                     keep_selected kept_chimeras
                       (if decide (output_file = input_file) then []
                        else records)]>
                 (<[tmp_file :=
                      RecordLine <$>
                        filter (λ c, good weighted_unique_frags max_isize
                                          false_pos_pairs c) records]> fs)).
Proof.
  intros Hrun Hin tmp_file.
  rewrite (filter_chimeras_run _ _ _ _ _ _ _ _ Hin) in Hrun. fold tmp_file in Hrun.
  destruct (load_false_pos false_pos_file fs).2 as [false_pos_pairs|]; [|done].
  destruct (mapM as_record ls) as [records|]; [|done]. cbv zeta in Hrun.
  destruct (_ !! path_join index_dir GENE_FEATURE_FILE) as [gene_lines|];
    [|done].
  simpl in Hrun.
  destruct (build_tx_cluster_map gene_lines) as [tx_cluster_map|]; [|done].
  simpl in Hrun.
  destruct (build_gene_to_genome_map gene_lines) as [tx_genome_map|]; [|done].
  simpl in Hrun.
  destruct (kept_names _ _ _) as [kept_chimeras|] eqn:Hkept; [|done].
  simplify_eq.
  by exists false_pos_pairs, records, tx_cluster_map, tx_genome_map, kept_chimeras.
Qed.

Lemma load_false_pos_run false_pos_file fs :
  load_false_pos false_pos_file fs
  = (fs, match false_pos_file with
         | Some f =>
             if bool_decide (f = ""%string) then Some ∅
             else list_to_set <$> (fs !! f ≫= mapM parse_false_pos_line)
         | None => Some ∅
         end).
Proof.
  destruct false_pos_file as [f|]; simpl; [|done].
  case_bool_decide; [done|]. unfold read_false_pos_file.
  rewrite bind_run. unfold open_read at 1.
  destruct (fs !! f) as [ls|]; [|done]. simpl.
  rewrite bind_run. unfold io_lift at 1.
  by destruct (mapM parse_false_pos_line ls).
Qed.

(** A fresh temporary name that disappears again leaves only the output
    file changed. *)
Lemma delete_tmp_insert_output (fs : filesystem) tmp_file output_file tmp out :
  fs !! tmp_file = None → tmp_file ≠ output_file →
  delete tmp_file (<[output_file := out]> (<[tmp_file := tmp]> fs))
  = <[output_file := out]> fs.
Proof.
  intros Hfresh Hne.
  by rewrite delete_insert_ne, delete_insert_id.
Qed.

(** Running the stage again on what it left behind returns again and
    changes nothing. *)
Lemma filter_chimeras_rerun input_file output_file index_dir
    weighted_unique_frags max_isize false_pos_file fs fs' r :
  filter_chimeras input_file output_file index_dir weighted_unique_frags
    max_isize false_pos_file fs = (fs', Some r) →
  is_Some (fs !! input_file) → input_file ≠ output_file →
  is_Some (fs !! path_join index_dir GENE_FEATURE_FILE) →
  path_join index_dir GENE_FEATURE_FILE ≠ output_file →
  false_pos_file ≠ Some output_file →
  is_Some (fs' !! output_file) →
  filter_chimeras input_file output_file index_dir weighted_unique_frags
    max_isize false_pos_file fs' = (fs', Some r).
Proof.
  intros Hrun [ls Hin] Hio [gl Hgene] Hgo Hfo Hout.
  pose proof (make_temp_fresh fs (dirname output_file) ".txt") as Hfresh.
  rewrite (filter_chimeras_run _ _ _ _ _ _ _ _ Hin) in Hrun.
  set (tmp_file := make_temp_name fs (dirname output_file) ".txt") in *.
  destruct (load_false_pos false_pos_file fs).2 as [false_pos_pairs|] eqn:Hfp;
    [|done].
  destruct (mapM as_record ls) as [records|] eqn:Hrecords; [|done].
  cbv zeta in Hrun.
  rewrite lookup_insert_ne, Hgene in Hrun by congruence. simpl in Hrun.
  destruct (build_tx_cluster_map gl) as [tx_cluster_map|] eqn:Htcm; [|done].
  simpl in Hrun.
  destruct (build_gene_to_genome_map gl) as [tx_genome_map|] eqn:Htgm; [|done].
  simpl in Hrun.
  destruct (kept_names _ _ _) as [kept_chimeras|] eqn:Hkept; [|done].
  rewrite decide_False in Hrun by done. simplify_eq.
  assert (tmp_file ≠ output_file) as Hto.
  { intros Heq. rewrite Heq, lookup_delete_eq in Hout. by destruct Hout. }
  rewrite delete_tmp_insert_output by done. clear Hout.
  set (out := RecordLine <$> keep_selected kept_chimeras records).
  set (fs' := <[output_file := out]> fs).
  assert (fs' !! input_file = Some ls) as Hin'.
  { unfold fs'. by rewrite lookup_insert_ne. }
  pose proof (make_temp_fresh fs' (dirname output_file) ".txt") as Hfresh'.
  rewrite (filter_chimeras_run _ _ _ _ _ _ _ _ Hin').
  set (tmp_file' := make_temp_name fs' (dirname output_file) ".txt") in *.
  assert ((load_false_pos false_pos_file fs').2 = Some false_pos_pairs) as ->.
  { rewrite <- Hfp. rewrite !load_false_pos_run. simpl.
    destruct false_pos_file as [f|]; [|done]. case_bool_decide; [done|].
    unfold fs'. rewrite lookup_insert_ne; [done|]. congruence. }
  rewrite Hrecords. cbv zeta.
  assert (tmp_file' ≠ path_join index_dir GENE_FEATURE_FILE) as Htg.
  { intros Heq. rewrite Heq in Hfresh'. unfold fs' in Hfresh'.
    rewrite lookup_insert_ne in Hfresh' by done. congruence. }
  rewrite lookup_insert_ne by done.
  unfold fs' at 1. rewrite lookup_insert_ne, Hgene by done. simpl.
  rewrite Htcm. simpl. rewrite Htgm. simpl. rewrite Hkept.
  rewrite decide_False by done. fold out.
  assert (tmp_file' ≠ output_file) as Hto'.
  { intros Heq. rewrite Heq in Hfresh'. unfold fs' in Hfresh'.
    by rewrite lookup_insert_eq in Hfresh'. }
  rewrite delete_tmp_insert_output by done.
  unfold fs'. by rewrite insert_insert_eq.
Qed.

End FilterStage.

Section FilterStageClaims.
Context `{GeneLib} `{OsLib}.


(** With pairwise distinct names, what [filter_chimeras] writes is the
    isoform collapse of the records that pass the three filters. *)
Lemma filter_chimeras_collapses input_file output_file index_dir
    weighted_unique_frags max_isize false_pos_file fs fs' r records out :
  filter_chimeras input_file output_file index_dir weighted_unique_frags
    max_isize false_pos_file fs = (fs', Some r) →
  (Chimera_parse input_file fs).2 = Some records →
  NoDup (name <$> records) →
  input_file ≠ output_file →
  fs' !! output_file = Some out →
  ∃ false_pos_pairs tx_cluster_map tx_genome_map collapsed,
    (load_false_pos false_pos_file fs).2 = Some false_pos_pairs
    ∧ isoform_collapse tx_cluster_map tx_genome_map
        (filter (λ c, good weighted_unique_frags max_isize false_pos_pairs c)
                records) = Some collapsed
    ∧ out = RecordLine <$> collapsed.
Proof.
  intros Hrun Hparse Hnd Hio Hout.
  rewrite Chimera_parse_run in Hparse. simpl in Hparse.
  destruct (fs !! input_file) as [ls|] eqn:Hls; [|done]. simpl in Hparse.
  destruct (filter_chimeras_returns _ _ _ _ _ _ _ _ _ _ Hrun Hls)
    as (fp & records' & tcm & tgm & kept & Hfp & Hrecords & Hkept & _ & ->).
  simplify_eq.
  rewrite lookup_delete in Hout. case_decide; [done|].
  rewrite lookup_insert_eq, decide_False in Hout by done. simplify_eq.
  exists fp, tcm, tgm, (keep_selected kept (filter (λ c, good weighted_unique_frags max_isize fp c) records)).
  split_and!; [done| |].
  - unfold isoform_collapse. by rewrite Hkept.
  - f_equal. unfold keep_selected. rewrite list_filter_filter.
    apply filter_ext_elem. intros c Hc. split; [|by intros [? _]].
    intros Hn. split; [done|].
    apply (kept_names_Some _ _ _ _ Hkept) in Hn
      as (c0 & [Hgood Hc0]%list_elem_of_filter & Hname & _).
    by rewrite <- (NoDup_fmap_eq name records c0 c Hnd Hc0 Hc Hname).
Qed.

End FilterStageClaims.




(** * Further properties *)

(** * Further properties of the collapse *)

Section CollapseFurther.
Context `{GeneLib}.
Variables (tx_cluster_map : gmap string Cluster) (tx_genome_map : TxGenomeMap).

Lemma top_ranked_Permutation records records' c :
  records ≡ₚ records' →
  top_ranked tx_cluster_map tx_genome_map records c →
  top_ranked tx_cluster_map tx_genome_map records' c.
Proof. unfold top_ranked. by intros ->. Qed.

Lemma kept_names_Permutation records records' names :
  records ≡ₚ records' →
  kept_names tx_cluster_map tx_genome_map records = Some names →
  kept_names tx_cluster_map tx_genome_map records' = Some names.
Proof.
  intros Hp Hkept.
  pose proof (kept_names_keys _ _ _ _ Hkept) as Hkeys. rewrite Hp in Hkeys.
  destruct (kept_names_is_Some tx_cluster_map tx_genome_map _ Hkeys)
    as [names' Hkept'].
  rewrite Hkept'. f_equal. apply set_eq. intros n.
  rewrite (kept_names_Some _ _ _ _ Hkept n), (kept_names_Some _ _ _ _ Hkept' n).
  split; intros (c & Hc & Hn & Htop); exists c.
  - split_and!; [by rewrite Hp|done|].
    symmetry in Hp. by eapply top_ranked_Permutation.
  - split_and!; [by rewrite <- Hp|done|by eapply top_ranked_Permutation].
Qed.

(** X1.  The isoform collapse does not depend on the order in which the
    records are read: on a reordering of the records for which the pass
    returns, it returns too, and keeps the same records (in the order of
    the reordered input). *)
Theorem isoform_collapse_Permutation records records' out :
  records ≡ₚ records' →
  isoform_collapse tx_cluster_map tx_genome_map records = Some out →
  ∃ out', isoform_collapse tx_cluster_map tx_genome_map records' = Some out'
          ∧ out ≡ₚ out'.
Proof.
  intros Hp. unfold isoform_collapse.
  destruct (kept_names _ _ records) as [names|] eqn:Hkept; [|done].
  intros [= <-]. rewrite (kept_names_Permutation _ _ _ Hp Hkept). simpl.
  eexists; split; [done|]. unfold keep_selected. by rewrite Hp.
Qed.

(** X2.  [get_highest_coverage_isoforms] returns, rather than raising,
    exactly when for every record both transcript names are keys of the
    cluster table and both breakpoints, [partner5p.end - 1] and
    [partner3p.start], have a genomic position. *)
Theorem kept_names_is_Some_iff records :
  is_Some (kept_names tx_cluster_map tx_genome_map records)
  ↔ ∀ c, c ∈ records →
      is_Some (tx_cluster_map !! tx_name (partner5p c))
      ∧ is_Some (tx_cluster_map !! tx_name (partner3p c))
      ∧ is_Some (gene_to_genome_pos (tx_name (partner5p c))
                   (end_ (partner5p c) - 1) tx_genome_map)
      ∧ is_Some (gene_to_genome_pos (tx_name (partner3p c))
                   (start (partner3p c)) tx_genome_map).
Proof.
  assert (∀ c, is_Some (breakpoint_key tx_cluster_map tx_genome_map c)
    ↔ is_Some (tx_cluster_map !! tx_name (partner5p c))
      ∧ is_Some (tx_cluster_map !! tx_name (partner3p c))
      ∧ is_Some (gene_to_genome_pos (tx_name (partner5p c))
                   (end_ (partner5p c) - 1) tx_genome_map)
      ∧ is_Some (gene_to_genome_pos (tx_name (partner3p c))
                   (start (partner3p c)) tx_genome_map)) as Hkey.
  { intros c. unfold breakpoint_key.
    destruct (tx_cluster_map !! tx_name (partner5p c)); simpl;
      [|split; [by intros []|by intros [[] _]]].
    destruct (tx_cluster_map !! tx_name (partner3p c)); simpl;
      [|split; [by intros []|by intros (_ & [] & _)]].
    destruct (gene_to_genome_pos (tx_name (partner5p c)) _ _); simpl;
      [|split; [by intros []|by intros (_ & _ & [] & _)]].
    destruct (gene_to_genome_pos (tx_name (partner3p c)) _ _); simpl;
      [|split; [by intros []|by intros (_ & _ & _ & [])]].
    split; [by eauto|by eauto]. }
  split.
  - intros [names Hkept] c Hc. apply Hkey.
    pose proof (kept_names_keys _ _ _ _ Hkept) as Hkeys.
    rewrite Forall_forall in Hkeys. by apply Hkeys.
  - intros Hall. apply kept_names_is_Some. apply Forall_forall.
    intros c Hc. apply Hkey. by apply Hall.
Qed.

(** X3.  Whether names repeat or not, what the collapse keeps is a
    selection of the records in their order, every record has a kept
    record with its breakpoint key that no record of that key outranks,
    and records that are not empty leave a selection that is not
    empty. *)
Theorem isoform_collapse_covers_groups records out :
  isoform_collapse tx_cluster_map tx_genome_map records = Some out →
  out `sublist_of` records
  ∧ (∀ c, c ∈ records →
       ∃ m, m ∈ out
            ∧ breakpoint_key tx_cluster_map tx_genome_map m
              = breakpoint_key tx_cluster_map tx_genome_map c
            ∧ top_ranked tx_cluster_map tx_genome_map records m)
  ∧ (records ≠ [] → out ≠ []).
Proof.
  intros Hout. apply isoform_collapse_Some in Hout. subst out.
  assert (∀ c, c ∈ records →
       ∃ m, m ∈ filter (name_selected tx_cluster_map tx_genome_map records) records
            ∧ breakpoint_key tx_cluster_map tx_genome_map m
              = breakpoint_key tx_cluster_map tx_genome_map c
            ∧ top_ranked tx_cluster_map tx_genome_map records m) as Hcover.
  { intros c Hc.
    destruct (exists_top_ranked tx_cluster_map tx_genome_map records c Hc)
      as (m & Hm & Hkey & Htop).
    exists m. split_and!; [|done..].
    apply list_elem_of_filter. split; [|done].
    apply name_selected_spec. by exists m. }
  split_and!; [apply sublist_filter|done|].
  intros Hne Hnil. destruct records as [|c records']; [done|].
  destruct (Hcover c) as (m & Hm & _); [left|].
  rewrite Hnil in Hm. by apply elem_of_nil in Hm.
Qed.

End CollapseFurther.

Section FilterStageFurther.
Context `{GeneLib} `{OsLib}.

(** The run of [filter_chimeras] when the input file does not exist. *)
Lemma filter_chimeras_run_absent input_file output_file index_dir
    weighted_unique_frags max_isize false_pos_file fs :
  fs !! input_file = None →
  make_temp_name fs (dirname output_file) ".txt" ≠ input_file →
  filter_chimeras input_file output_file index_dir weighted_unique_frags
    max_isize false_pos_file fs
  = match (load_false_pos false_pos_file fs).2 with
    | None => (fs, None)
    | Some _ =>
        (<[make_temp_name fs (dirname output_file) ".txt" := []]> fs, None)
    end.
Proof.
  intros Hin Hne. unfold filter_chimeras.
  rewrite bind_run, (read_only_run _ fs (read_only_load_false_pos _)).
  destruct (load_false_pos false_pos_file fs).2 as [false_pos_pairs|]; [|done].
  rewrite bind_run. unfold make_temp at 1. cbv zeta.
  set (tmp_file := make_temp_name fs (dirname output_file) ".txt") in *.
  rewrite bind_run. unfold open_write at 1. rewrite insert_insert_eq.
  rewrite bind_run, Chimera_parse_run.
  by rewrite lookup_insert_ne, Hin.
Qed.



(** X6.  On success, the output file holds a selection of the records of
    the input file, in the order of the input, and every written record
    bears the name of a record that passed the three filters. *)
Theorem filter_chimeras_output_sublist input_file output_file index_dir
    weighted_unique_frags max_isize false_pos_file fs fs' r records out :
  filter_chimeras input_file output_file index_dir weighted_unique_frags
    max_isize false_pos_file fs = (fs', Some r) →
  (Chimera_parse input_file fs).2 = Some records →
  input_file ≠ output_file →
  fs' !! output_file = Some out →
  ∃ false_pos_pairs written,
    (load_false_pos false_pos_file fs).2 = Some false_pos_pairs
    ∧ out = RecordLine <$> written
    ∧ written `sublist_of` records
    ∧ ∀ c, c ∈ written →
        ∃ c0, c0 ∈ records ∧ name c0 = name c
              ∧ good weighted_unique_frags max_isize false_pos_pairs c0 = true.
Proof.
  intros Hrun Hparse Hio Hout.
  rewrite Chimera_parse_run in Hparse. simpl in Hparse.
  destruct (fs !! input_file) as [ls|] eqn:Hls; [|done]. simpl in Hparse.
  destruct (filter_chimeras_returns _ _ _ _ _ _ _ _ _ _ Hrun Hls)
    as (fp & records' & tcm & tgm & kept & Hfp & Hrecords & Hkept & _ & ->).
  simplify_eq.
  rewrite lookup_delete in Hout. case_decide; [done|].
  rewrite lookup_insert_eq, decide_False in Hout by done. simplify_eq.
  exists fp, (keep_selected kept records).
  split_and!; [done|done|apply sublist_filter|].
  intros c [Hn Hc]%list_elem_of_filter.
  apply (kept_names_Some _ _ _ _ Hkept) in Hn
    as (c0 & [Hgood Hc0]%list_elem_of_filter & Hname & _).
  exists c0. split_and!; [done..|]. by destruct (good _ _ _ c0).
Qed.

(** X7.  When the names of the input are pairwise distinct, every record
    of the output file is a record of the input whose weighted
    unique-fragment count reaches the threshold and, for a positive
    [max_isize], whose two inner distances do not exceed it. *)
Theorem filter_chimeras_output_passes input_file output_file index_dir
    weighted_unique_frags max_isize false_pos_file fs fs' r records out c :
  filter_chimeras input_file output_file index_dir weighted_unique_frags
    max_isize false_pos_file fs = (fs', Some r) →
  (Chimera_parse input_file fs).2 = Some records →
  NoDup (name <$> records) →
  input_file ≠ output_file →
  fs' !! output_file = Some out →
  RecordLine c ∈ out →
  c ∈ records
  ∧ (weighted_unique_frags ≤ get_weighted_unique_frags c)%Qc
  ∧ (0 < max_isize →
     inner_dist (partner5p c) ≤ max_isize ∧ inner_dist (partner3p c) ≤ max_isize).
Proof.
  intros Hrun Hparse Hnd Hio Hout Hin.
  rewrite Chimera_parse_run in Hparse. simpl in Hparse.
  destruct (fs !! input_file) as [ls|] eqn:Hls; [|done]. simpl in Hparse.
  destruct (filter_chimeras_returns _ _ _ _ _ _ _ _ _ _ Hrun Hls)
    as (fp & records' & tcm & tgm & kept & Hfp & Hrecords & Hkept & _ & ->).
  simplify_eq.
  rewrite lookup_delete in Hout. case_decide; [done|].
  rewrite lookup_insert_eq, decide_False in Hout by done. simplify_eq.
  apply list_elem_of_fmap in Hin as (c' & [= <-] & [Hn Hc]%list_elem_of_filter).
  apply (kept_names_Some _ _ _ _ Hkept) in Hn
    as (c0 & [Hgood Hc0]%list_elem_of_filter & Hname & _).
  assert (c0 = c) as -> by (by eapply (NoDup_fmap_eq name)).
  unfold good in Hgood.
  apply andb_prop_elim in Hgood as [[Hcov Hdist]%andb_prop_elim _].
  split_and!; [done|by apply bool_decide_unpack in Hcov|].
  intros Hpos. unfold filter_inner_dist in Hdist.
  rewrite bool_decide_eq_false_2 in Hdist by lia.
  repeat case_bool_decide; try done. lia.
Qed.


(** X9.  A line of the blacklist that does not split into four fields,
    a blank line for one, makes [read_false_pos_file] raise, and
    [filter_chimeras] raises before it has created any file. *)
Theorem filter_chimeras_malformed_blacklist input_file output_file index_dir
    weighted_unique_frags max_isize false_pos_file fs ls s :
  false_pos_file ≠ ""%string →
  fs !! false_pos_file = Some ls →
  TextLine s ∈ ls →
  length (split_tab (strip s)) ≠ 4%nat →
  (read_false_pos_file false_pos_file fs).2 = None
  ∧ filter_chimeras input_file output_file index_dir weighted_unique_frags
      max_isize (Some false_pos_file) fs = (fs, None).
Proof.
  intros Hne Hls Hs Hlen.
  assert ((load_false_pos (Some false_pos_file) fs).2 = None) as Hload.
  { rewrite load_false_pos_run. simpl.
    rewrite bool_decide_eq_false_2 by done. rewrite Hls. simpl.
    destruct (mapM parse_false_pos_line ls) as [keys|] eqn:Hkeys; [|done].
    exfalso. apply mapM_Some in Hkeys.
    apply list_elem_of_lookup in Hs as [i Hi].
    destruct (Forall2_lookup_l _ _ _ _ _ Hkeys Hi) as (k & _ & Hk).
    unfold parse_false_pos_line in Hk. simpl in Hk.
    destruct (split_tab (strip s)) as [|? [|? [|? [|? [|? ?]]]]]; done. }
  split.
  - revert Hload. simpl. by rewrite bool_decide_eq_false_2.
  - unfold filter_chimeras.
    rewrite bind_run, (read_only_run _ fs (read_only_load_false_pos _)).
    by rewrite Hload.
Qed.

End FilterStageFurther.

(** X10.  When [read_false_pos_file] returns, every line of the file
    parsed, and the set returned holds exactly the keys of the lines. *)
Theorem read_false_pos_file_keys filename fs ls keys :
  fs !! filename = Some ls →
  (read_false_pos_file filename fs).2 = Some keys →
  Forall (λ l, is_Some (parse_false_pos_line l)) ls
  ∧ ∀ k, k ∈ keys ↔ ∃ l, l ∈ ls ∧ parse_false_pos_line l = Some k.
Proof.
  intros Hls Hkeys.
  unfold read_false_pos_file in Hkeys. rewrite bind_run in Hkeys.
  unfold open_read at 1 in Hkeys. rewrite Hls in Hkeys. simpl in Hkeys.
  rewrite bind_run in Hkeys. unfold io_lift at 1 in Hkeys.
  destruct (mapM parse_false_pos_line ls) as [ks|] eqn:Hks; [|done].
  simpl in Hkeys. injection Hkeys as <-.
  apply mapM_Some in Hks. split.
  - apply Forall_forall. intros l [i Hi]%list_elem_of_lookup.
    destruct (Forall2_lookup_l _ _ _ _ _ Hks Hi) as (k & _ & Hk). by eauto.
  - intros k. rewrite elem_of_list_to_set. split.
    + intros [i Hi]%list_elem_of_lookup.
      destruct (Forall2_lookup_r _ _ _ _ _ Hks Hi) as (l & Hl & Hk).
      exists l. split; [by eapply list_elem_of_lookup_2|done].
    + intros (l & [i Hi]%list_elem_of_lookup & Hk).
      destruct (Forall2_lookup_l _ _ _ _ _ Hks Hi) as (k' & Hk' & Hk'').
      assert (k' = k) as -> by congruence.
      by eapply list_elem_of_lookup_2.
Qed.

(** * Text *)

Lemma is_tab_is_space a : is_tab a = true → is_space a = true.
Proof.
  unfold is_tab, is_space. intros ->%N.eqb_eq. reflexivity.
Qed.

Lemma no_space_no_tab s : no_space s = true → no_tab s = true.
Proof.
  induction s as [|a s IH]; simpl; [done|].
  intros [Ha Hs]%andb_true_iff. rewrite IH by done.
  destruct (is_tab a) eqn:Ht; [|done].
  by rewrite (is_tab_is_space a Ht) in Ha.
Qed.

Lemma string_app_assoc (s t u : string) : (s +:+ t) +:+ u = s +:+ t +:+ u.
Proof.
  induction s as [|a s IH]; [done|].
  change (String a ((s +:+ t) +:+ u) = String a (s +:+ t +:+ u)).
  by rewrite IH.
Qed.

Lemma lstrip_no_space s : no_space s = true → lstrip s = s.
Proof. destruct s as [|a s]; simpl; [done|]. by destruct (is_space a). Qed.

Lemma lstrip_app_no_space s t :
  no_space s = true → s ≠ EmptyString → lstrip (s +:+ t) = s +:+ t.
Proof. destruct s as [|a s]; simpl; [done|]. by destruct (is_space a). Qed.

Lemma rstrip_all_space s : all_space s = true → rstrip s = EmptyString.
Proof.
  induction s as [|a s IH]; simpl; [done|].
  intros [Ha Hs]%andb_true_iff. by rewrite IH, Ha.
Qed.

Lemma rstrip_app_all_space s t :
  all_space t = true → rstrip (s +:+ t) = rstrip s.
Proof.
  intros Ht. induction s as [|a s IH]; [by apply rstrip_all_space|].
  change (rstrip (String a (s +:+ t)) = rstrip (String a s)).
  cbn [rstrip]. by rewrite IH.
Qed.

Lemma rstrip_no_space s : no_space s = true → rstrip s = s.
Proof.
  induction s as [|a s IH]; simpl; [done|].
  intros [Ha Hs]%andb_true_iff. rewrite IH by done.
  destruct s; [|done]. by destruct (is_space a).
Qed.

Lemma rstrip_app_no_space s t :
  no_space t = true → t ≠ EmptyString → rstrip (s +:+ t) = s +:+ t.
Proof.
  intros Ht Hne. induction s as [|a s IH]; [by apply rstrip_no_space|].
  change (rstrip (String a (s +:+ t)) = String a (s +:+ t)).
  cbn [rstrip]. rewrite IH. destruct (s +:+ t) eqn:Hst; [|done].
  destruct s; [done|discriminate].
Qed.

Lemma split_tab_no_tab s : no_tab s = true → split_tab s = [s].
Proof.
  induction s as [|a s IH]; simpl; [done|].
  intros [Ha Hs]%andb_true_iff. rewrite IH by done.
  by destruct (is_tab a).
Qed.

Lemma split_tab_app s t :
  no_tab s = true → split_tab (s +:+ tab +:+ t) = s :: split_tab t.
Proof.
  induction s as [|a s IH]; [done|].
  change (no_tab (String a s) = true →
          split_tab (String a (s +:+ tab +:+ t)) = String a s :: split_tab t).
  cbn [no_tab split_tab].
  intros [Ha Hs]%andb_true_iff. rewrite IH by done.
  by destruct (is_tab a).
Qed.

Lemma split_tab_length s : (0 < length (split_tab s))%nat.
Proof.
  induction s as [|a s IH]; simpl; [lia|].
  destruct (is_tab a); simpl; [lia|].
  destruct (split_tab s); simpl in *; lia.
Qed.

(** X11.  A line of four tab-separated fields, a 5' transcript name
    without white space, an integer, a 3' transcript name without tabs
    and an integer, followed by white space such as the end of the line,
    is read as the key of these four values. *)
Theorem parse_false_pos_line_fields
    (tx_name_5p end5p tx_name_3p start3p trailing : string) (e s : Z) :
  no_space tx_name_5p = true → tx_name_5p ≠ EmptyString →
  no_tab tx_name_3p = true →
  no_space end5p = true → py_int end5p = Some e →
  no_space start3p = true → py_int start3p = Some s →
  all_space trailing = true →
  parse_false_pos_line
    (TextLine (tx_name_5p +:+ tab +:+ end5p +:+ tab +:+ tx_name_3p +:+ tab
               +:+ start3p +:+ trailing))
  = Some (tx_name_5p, e, tx_name_3p, s).
Proof.
  intros H5 H5ne H3 He Hpe Hs Hps Htr.
  assert (start3p ≠ EmptyString) as Hsne by (by intros ->).
  unfold parse_false_pos_line. simpl. unfold strip.
  rewrite lstrip_app_no_space by done.
  rewrite <- !string_app_assoc.
  rewrite rstrip_app_all_space by done.
  rewrite rstrip_app_no_space by done.
  rewrite !string_app_assoc.
  rewrite !split_tab_app by auto using no_space_no_tab.
  rewrite split_tab_no_tab by auto using no_space_no_tab.
  by rewrite Hpe, Hps.
Qed.

(** * Thresholds *)

(** X12.  The three filters of the loop of [filter_chimeras] are
    monotone: a record that passes them still passes with a lower
    coverage threshold, with a larger or a disabled [max_isize], and with
    a smaller blacklist. *)
Theorem good_monotone (weighted_unique_frags weighted_unique_frags' : Qc)
    (max_isize max_isize' : Z) (false_pos_pairs false_pos_pairs' : gset false_pos_key)
    (c : Chimera) :
  (weighted_unique_frags' ≤ weighted_unique_frags)%Qc →
  max_isize' ≤ 0 ∨ 0 < max_isize ≤ max_isize' →
  false_pos_pairs' ⊆ false_pos_pairs →
  good weighted_unique_frags max_isize false_pos_pairs c = true →
  good weighted_unique_frags' max_isize' false_pos_pairs' c = true.
Proof.
  intros Hcov Hsize Hfp. unfold good, filter_weighted_frags, filter_inner_dist.
  rewrite !andb_true_iff, !bool_decide_eq_true.
  intros [[Hc Hd] Hk]. split_and!.
  - by etrans.
  - destruct Hsize as [Hoff|[Hpos Hle]].
    + by rewrite bool_decide_eq_true_2.
    + rewrite bool_decide_eq_false_2 in Hd by lia.
      rewrite (bool_decide_eq_false_2 (max_isize' ≤ 0)) by lia.
      repeat case_bool_decide; try done; lia.
  - intros Hin. apply Hk. by apply Hfp.
Qed.

(** * Staleness along a chain of stages *)

(** X13.  [up_to_date] composes along a chain of stages: when [b] is up
    to date with respect to [a] and [c] with respect to [b], then [c] is
    up to date with respect to [a]. *)
Theorem up_to_date_chain (meta : gmap string stat) (a b c : string) :
  up_to_date meta b a = true →
  up_to_date meta c b = true →
  up_to_date meta c a = true.
Proof.
  rewrite !up_to_date_true.
  intros (sa & sb & Ha & Hb & _ & Hab) (sb' & sc & Hb' & Hc & Hsz & Hbc).
  simplify_eq. exists sa, sc. split_and!; [done..|]. by etrans.
Qed.

(** * Insert-size profiling beyond the fallback *)

Section InsertSizeFurther.
Context `{InsertSizeLib}.

(** X14.  When profiling runs and the sample from the BAM file has at
    least [ISIZE_MIN_SAMPLES] fragments, the stage hands on the empirical
    distribution, sampled from the trimmed read length or
    [min_fragment_length], whichever is larger, up to
    [max_fragment_length]; it stores that distribution, logs no warning,
    and the random state plays no part. *)
Theorem profile_insert_size_empirical (runconfig : RunConfig)
    (original_read_length : Z) (meta : gmap string stat)
    (files : gmap string InsertSizeDistribution) (bamfh : Samfile)
    (rng : RandomState) (isize_dist_file aligned_bam_file : string) :
  up_to_date meta isize_dist_file aligned_bam_file = false →
  ISIZE_MIN_SAMPLES
    ≤ isize_n (from_bam bamfh
                 (Z.max (min_fragment_length runconfig)
                        (original_read_length - trim5 runconfig - trim3 runconfig))
                 (max_fragment_length runconfig) ISIZE_MAX_SAMPLES) →
  let out := profile_insert_size runconfig original_read_length meta files
               bamfh rng isize_dist_file aligned_bam_file in
  let empirical :=
    from_bam bamfh
      (Z.max (min_fragment_length runconfig)
             (original_read_length - trim5 runconfig - trim3 runconfig))
      (max_fragment_length runconfig) ISIZE_MAX_SAMPLES in
  isize_dist out = Some empirical
  ∧ isize_files out = <[isize_dist_file := empirical]> files
  ∧ (∀ msg, (WARNING, msg) ∉ isize_log out)
  ∧ ∀ rng', profile_insert_size runconfig original_read_length meta files
              bamfh rng' isize_dist_file aligned_bam_file = out.
Proof.
  intros Hstale Henough out empirical. unfold out, profile_insert_size.
  rewrite Hstale. fold empirical.
  rewrite bool_decide_eq_false_2 by (fold empirical in Henough; lia).
  split_and!; [done|done| |done].
  intros msg Hin. simpl in Hin.
  apply elem_of_cons in Hin as [[=]|Hin].
  apply elem_of_cons in Hin as [[=]|Hin].
  by apply elem_of_nil in Hin.
Qed.

(** X15.  The insert-size stage touches no file but the distribution
    file, hands on what that file holds when the stage is over, skips
    the profiling without any change when the file is up to date, and
    has a distribution to hand on whenever it profiles. *)
Theorem profile_insert_size_frame (runconfig : RunConfig)
    (original_read_length : Z) (meta : gmap string stat)
    (files : gmap string InsertSizeDistribution) (bamfh : Samfile)
    (rng : RandomState) (isize_dist_file aligned_bam_file : string) :
  let out := profile_insert_size runconfig original_read_length meta files
               bamfh rng isize_dist_file aligned_bam_file in
  (∀ p, p ≠ isize_dist_file → isize_files out !! p = files !! p)
  ∧ isize_dist out = isize_files out !! isize_dist_file
  ∧ (if up_to_date meta isize_dist_file aligned_bam_file
     then isize_files out = files
     else is_Some (isize_dist out)).
Proof.
  intros out. unfold out, profile_insert_size.
  destruct (up_to_date meta isize_dist_file aligned_bam_file).
  - destruct (files !! isize_dist_file) as [stored|] eqn:Hstored; simpl;
      by split_and!.
  - case_bool_decide; simpl.
    + split_and!; [|by rewrite lookup_insert_eq|by eauto].
      intros p Hp. by rewrite lookup_insert_ne.
    + split_and!; [|by rewrite lookup_insert_eq|by eauto].
      intros p Hp. by rewrite lookup_insert_ne.
Qed.

End InsertSizeFurther.

(** * Validation *)

Lemma Logged_bind_outcome {A B} (m : Logged A) (f : A → Logged B) :
  (m ≫= f).2 = match m.2 with
               | Returned x => (f x).2
               | ParserError msg => ParserError msg
               | Raised e => Raised e
               end.
Proof. unfold mbind, Logged_bind. by destruct m as [log [x|msg|e]]. Qed.

Lemma Logged_bind_log {A B} (m : Logged A) (f : A → Logged B) :
  (m ≫= f).1 = m.1 ++ match m.2 with
                      | Returned x => (f x).1
                      | _ => []
                      end.
Proof.
  unfold mbind, Logged_bind.
  destruct m as [log [x|msg|e]]; simpl; by rewrite ?app_nil_r.
Qed.

Lemma Logged_bind_Returned {A B} (m : Logged A) (f : A → Logged B) (y : B) :
  (m ≫= f).2 = Returned y ↔ ∃ x, m.2 = Returned x ∧ (f x).2 = Returned y.
Proof.
  rewrite Logged_bind_outcome. destruct m.2 as [x|msg|e].
  - split; [by eauto|]. by intros (x' & [= <-] & ?).
  - split; [done|]. by intros (? & ? & _).
  - split; [done|]. by intros (? & ? & _).
Qed.

(** At most one distinct value. *)
Lemma len_set_le_1 (l : list Z) :
  (len_set l ≤ 1)%nat ↔ ∀ x y, x ∈ l → y ∈ l → x = y.
Proof.
  unfold len_set. split.
  - intros Hsize x y Hx Hy. destruct (decide (x = y)) as [|Hne]; [done|].
    assert (({[x; y]} : gset Z) ⊆ list_to_set l) as Hsub.
    { intros z [->%elem_of_singleton| ->%elem_of_singleton]%elem_of_union;
        by apply elem_of_list_to_set. }
    apply subseteq_size in Hsub.
    rewrite size_union, !size_singleton in Hsub; [lia|].
    by apply disjoint_singleton_l, not_elem_of_singleton.
  - intros Heq. destruct l as [|x l]; [by rewrite list_to_set_nil, size_empty; lia|].
    assert ((list_to_set (x :: l) : gset Z) ⊆ {[x]}) as Hsub.
    { intros z Hz%elem_of_list_to_set. apply elem_of_singleton.
      apply Heq; [done|left]. }
    apply subseteq_size in Hsub. by rewrite size_singleton in Hsub.
Qed.

(** One step of a computation: the outcome of a bind, with the
    primitive on its left evaluated. *)
Ltac logged_cbn :=
  cbn [fst snd mret Logged_ret logging parser_error raise py_index
       lookup list_lookup].
Ltac logged_step := rewrite Logged_bind_outcome; logged_cbn.
Ltac logged_cbn_in H :=
  cbn [fst snd mret Logged_ret logging parser_error raise py_index
       lookup list_lookup] in H.
Ltac logged_step_in H := rewrite Logged_bind_outcome in H; logged_cbn_in H.

Section ValidationProofs.
Context `{OsLib} `{BaseLib}.

Lemma check_fastq_files_loop_Returned os read_lengths fastq_files rls :
  (check_fastq_files_loop os read_lengths fastq_files).2 = Returned rls
  ↔ Forall (λ f, os_path_isfile os f = true) fastq_files
    ∧ ∃ rls', mapM get_read_length fastq_files = Some rls'
              ∧ rls = read_lengths ++ rls'.
Proof.
  revert read_lengths.
  induction fastq_files as [|f fs IH]; intros read_lengths.
  - simpl. split.
    + intros [= <-]. split; [done|]. exists []. by rewrite app_nil_r.
    + intros (_ & rls' & [= <-] & ->). by rewrite app_nil_r.
  - cbn [check_fastq_files_loop]. rewrite Forall_cons.
    logged_step.
    destruct (os_path_isfile os f); logged_cbn.
    2:{ split; [done|]. by intros [[? _] _]. }
    do 2 logged_step.
    assert (mapM get_read_length (f :: fs)
            = rlen ← get_read_length f;
              (rlen ::.) <$> mapM get_read_length fs) as ->.
    { simpl. destruct (get_read_length f); [|done]. simpl.
      by destruct (mapM get_read_length fs). }
    destruct (get_read_length f) as [rlen|]; logged_cbn.
    2:{ split; [done|]. by intros (_ & ? & ? & _). }
    logged_step. rewrite IH. simpl.
    destruct (mapM get_read_length fs) as [rls''|]; simpl.
    2:{ split; [by intros (_ & ? & ? & _)|by intros (_ & ? & ? & _)]. }
    split.
    + intros (Hfs & rls' & [= <-] & ->). split; [done|].
      exists (rlen :: rls''). by rewrite <- app_assoc.
    + intros ([_ Hfs] & rls' & [= <-] & ->). split; [done|].
      exists rls''. by rewrite <- app_assoc.
Qed.

(** X16.  [check_fastq_files] returns the read length [rlen] exactly
    when there is at least one FASTQ file, every one is a regular file
    with reads of length [rlen], and the segment length is at least
    [MIN_SEGMENT_LENGTH] and at most the trimmed read length
    [rlen - trim5 - trim3]. *)
Theorem check_fastq_files_returns_length os fastq_files segment_length
    trim5 trim3 rlen :
  (check_fastq_files os fastq_files segment_length trim5 trim3).2
  = Returned (ReturnedLength rlen)
  ↔ fastq_files ≠ []
    ∧ Forall (λ f, os_path_isfile os f = true ∧ get_read_length f = Some rlen)
             fastq_files
    ∧ MIN_SEGMENT_LENGTH ≤ segment_length ≤ rlen - trim5 - trim3.
Proof.
  unfold check_fastq_files. rewrite Logged_bind_Returned. split.
  - intros (rls & (Hfiles & rls' & Hm & ->)%check_fastq_files_loop_Returned
            & Hrest).
    rewrite app_nil_l in Hrest. case_bool_decide as Hsize.
    { by logged_step_in Hrest. }
    apply Nat.nlt_ge in Hsize. rewrite len_set_le_1 in Hsize.
    logged_step_in Hrest.
    destruct rls' as [|r0 rls']; [done|]. logged_cbn_in Hrest.
    logged_step_in Hrest.
    case_bool_decide; [done|]. logged_cbn_in Hrest.
    logged_step_in Hrest.
    case_bool_decide; [done|]. logged_cbn_in Hrest.
    do 2 logged_step_in Hrest. injection Hrest as ->.
    split_and!; [by intros ->| |lia|lia].
    apply mapM_Some in Hm. apply Forall_forall. intros f Hf.
    rewrite Forall_forall in Hfiles. split; [by apply Hfiles|].
    apply list_elem_of_lookup in Hf as [i Hi].
    destruct (Forall2_lookup_l _ _ _ _ _ Hm Hi) as (r & Hr & ->).
    f_equal. apply Hsize; [by eapply list_elem_of_lookup_2|left].
  - intros (Hne & Hall & Hseg).
    assert (mapM get_read_length fastq_files
            = Some (replicate (length fastq_files) rlen)) as Hm.
    { apply mapM_Some, Forall2_same_length_lookup. split.
      - by rewrite length_replicate.
      - intros i f r Hf [-> _]%lookup_replicate.
        rewrite Forall_forall in Hall.
        by apply Hall, (list_elem_of_lookup_2 _ i). }
    exists (replicate (length fastq_files) rlen). split.
    + apply check_fastq_files_loop_Returned. split.
      * eapply Forall_impl; [done|]. by intros f [? _].
      * by eexists.
    + rewrite bool_decide_eq_false_2.
      2:{ apply Nat.le_ngt, len_set_le_1.
          by intros x y [-> _]%elem_of_replicate [-> _]%elem_of_replicate. }
      destruct fastq_files as [|f fs]; [done|]. cbn [length replicate].
      do 2 logged_step.
      rewrite bool_decide_eq_false_2 by lia. logged_cbn.
      logged_step.
      rewrite bool_decide_eq_false_2 by lia. logged_cbn.
      by do 2 logged_step.
Qed.

Lemma len_set_gt_1 (l : list Z) :
  (1 < len_set l)%nat ↔ ∃ x y, x ∈ l ∧ y ∈ l ∧ x ≠ y.
Proof.
  split.
  - intros Hsize. destruct l as [|x l].
    { unfold len_set in Hsize. rewrite list_to_set_nil, size_empty in Hsize. lia. }
    destruct (decide (Forall (λ y, y = x) (x :: l))) as [Hall|Hex].
    + exfalso. apply Nat.lt_nge in Hsize. apply Hsize, len_set_le_1.
      rewrite Forall_forall in Hall.
      intros y z Hy Hz. by rewrite (Hall y Hy), (Hall z Hz).
    + apply not_Forall_Exists in Hex; [|apply _].
      apply Exists_exists in Hex as (y & Hy & Hne).
      exists x, y. split_and!; [left|done|]. intros ->. by apply Hne.
  - intros (x & y & Hx & Hy & Hne). apply Nat.lt_nge. intros Hle.
    rewrite len_set_le_1 in Hle. by apply Hne, Hle.
Qed.

Lemma check_fastq_files_loop_log os read_lengths fastq_files :
  Forall (λ r, r.1 = DEBUG)
         (check_fastq_files_loop os read_lengths fastq_files).1.
Proof.
  revert read_lengths.
  induction fastq_files as [|f fs IH]; intros read_lengths; [done|].
  cbn [check_fastq_files_loop]. rewrite Logged_bind_log.
  destruct (os_path_isfile os f); logged_cbn; [|done].
  rewrite Logged_bind_log. logged_cbn. cbn [app].
  apply Forall_cons. split; [done|].
  rewrite Logged_bind_log.
  destruct (get_read_length f) as [rlen|]; logged_cbn; [|done].
  rewrite Logged_bind_log. logged_cbn. cbn [app].
  apply Forall_cons. split; [done|].
  apply IH.
Qed.

(** X17.  [check_fastq_files] returns [False] exactly when every FASTQ
    file is a regular file that can be read and two of the read lengths
    differ; it has then logged the one error on unequal lengths, besides
    debug records.  Without any FASTQ file it raises [IndexError]. *)
Theorem check_fastq_files_returns_False os fastq_files segment_length
    trim5 trim3 :
  ((check_fastq_files os fastq_files segment_length trim5 trim3).2
   = Returned ReturnedFalse
   ↔ Forall (λ f, os_path_isfile os f = true) fastq_files
     ∧ ∃ read_lengths,
         mapM get_read_length fastq_files = Some read_lengths
         ∧ ∃ x y, x ∈ read_lengths ∧ y ∈ read_lengths ∧ x ≠ y)
  ∧ ((check_fastq_files os fastq_files segment_length trim5 trim3).2
     = Returned ReturnedFalse →
     ∀ level msg,
       (level, msg) ∈ (check_fastq_files os fastq_files segment_length
                         trim5 trim3).1 →
       level = DEBUG ∨ (level, msg) = (ERROR, msg_unequal))
  ∧ ((check_fastq_files os fastq_files segment_length trim5 trim3).2
     = Returned ReturnedFalse →
     (ERROR, msg_unequal)
       ∈ (check_fastq_files os fastq_files segment_length trim5 trim3).1)
  ∧ check_fastq_files os [] segment_length trim5 trim3
    = ([], Raised IndexError).
Proof.
  assert (∀ rls,
    (if bool_decide (1 < len_set rls)%nat
     then logging ERROR msg_unequal;; mret ReturnedFalse
     else rlen ← py_index rls 0;
          (if bool_decide (segment_length < MIN_SEGMENT_LENGTH)
           then parser_error msg_segment_too_small else mret tt);;
          (if bool_decide (rlen - trim5 - trim3 < segment_length)
           then parser_error msg_segment_too_long else mret tt);;
          logging DEBUG msg_effective_length;;
          rlen0 ← py_index rls 0; mret (ReturnedLength rlen0)).2
    = Returned ReturnedFalse → (1 < len_set rls)%nat) as Htail.
  { intros rls Hrest. case_bool_decide as Hsize; [done|]. exfalso.
    logged_step_in Hrest. destruct rls as [|r0 rls]; [done|].
    logged_cbn_in Hrest. logged_step_in Hrest.
    case_bool_decide; [done|]. logged_cbn_in Hrest. logged_step_in Hrest.
    case_bool_decide; [done|]. logged_cbn_in Hrest.
    by do 2 logged_step_in Hrest. }
  split_and!.
  - unfold check_fastq_files. rewrite Logged_bind_Returned. split.
    + intros (rls & (Hfiles & rls' & Hm & ->)%check_fastq_files_loop_Returned
              & Hrest).
      rewrite app_nil_l in Hrest. apply Htail, len_set_gt_1 in Hrest.
      by eauto.
    + intros (Hfiles & rls & Hm & Hne%len_set_gt_1).
      exists rls. split.
      * apply check_fastq_files_loop_Returned. by eauto.
      * rewrite bool_decide_eq_true_2 by done. by logged_step.
  - unfold check_fastq_files. intros Hret level msg.
    rewrite Logged_bind_log.
    apply Logged_bind_Returned in Hret as (rls & Hloop & Hrest).
    rewrite Hloop. apply Htail in Hrest.
    rewrite bool_decide_eq_true_2 by done.
    rewrite Logged_bind_log. logged_cbn.
    intros [Hin|Hin%list_elem_of_singleton]%elem_of_app; [left|right; by subst].
    pose proof (check_fastq_files_loop_log os [] fastq_files) as Hlog.
    rewrite Forall_forall in Hlog. by apply (Hlog _ Hin).
  - unfold check_fastq_files. intros Hret.
    rewrite Logged_bind_log.
    apply Logged_bind_Returned in Hret as (rls & Hloop & Hrest).
    rewrite Hloop. apply Htail in Hrest.
    rewrite bool_decide_eq_true_2 by done.
    rewrite Logged_bind_log. logged_cbn.
    apply elem_of_app. right. left.
  - reflexivity.
Qed.

Lemma check_command_line_args_loop_isfile os args0 read_lengths fastq_files rls :
  (check_command_line_args_loop os args0 read_lengths fastq_files).2
  = Returned rls →
  fastq_files ≠ [] → os_path_isfile os args0 = true.
Proof.
  destruct fastq_files as [|f fs]; [done|]. intros Hret _.
  cbn [check_command_line_args_loop] in Hret. logged_step_in Hret.
  by destruct (os_path_isfile os args0).
Qed.

(** X18.  [check_command_line_args] returns on no command line: its
    loop requires [args[0]], the index directory, to be a regular file,
    and a later test requires it to be a directory.  With fewer than
    four arguments it ends in the parser error on their number. *)
Theorem check_command_line_args_never_returns os segment_length trim5 trim3
    bowtie_path num_processors args :
  (check_command_line_args os segment_length trim5 trim3 bowtie_path
     num_processors args).2 ≠ Returned tt
  ∧ ((length args < 4)%nat →
     check_command_line_args os segment_length trim5 trim3 bowtie_path
       num_processors args = ([], ParserError msg_incorrect_number)).
Proof.
  split.
  - unfold check_command_line_args. intros Hret.
    apply Logged_bind_Returned in Hret as (? & Hlen & Hret).
    destruct (bool_decide (length args < NUM_POSITIONAL_ARGS)%nat) eqn:Hlen';
      [by logged_cbn_in Hlen|].
    apply bool_decide_eq_false in Hlen'. clear Hlen.
    apply Logged_bind_Returned in Hret as (index_dir & Hindex & Hret).
    apply Logged_bind_Returned in Hret as (output_dir & Houtput & Hret).
    apply Logged_bind_Returned in Hret as (rls & Hloop & Hret).
    apply check_command_line_args_loop_isfile in Hloop.
    2:{ unfold NUM_POSITIONAL_ARGS in Hlen'.
        destruct args as [|? [|? ?]]; [simpl in Hlen'; lia..|done]. }
    do 6 (apply Logged_bind_Returned in Hret as (? & _ & Hret)).
    apply Logged_bind_Returned in Hret as (? & Hdir & _).
    destruct (os_path_isdir os index_dir) eqn:Hisdir;
      [|by logged_cbn_in Hdir].
    unfold os_path_isfile, os_path_isdir in *.
    apply bool_decide_eq_true in Hloop, Hisdir. congruence.
  - intros Hlen. unfold check_command_line_args.
    rewrite (bool_decide_eq_true_2 (length args < NUM_POSITIONAL_ARGS)%nat)
      by done.
    reflexivity.
Qed.

(** The outcome of the loop of [check_config]. *)
Lemma check_config_loop_outcome os config_passed read_lengths fastq_files :
  (check_config_loop os config_passed read_lengths fastq_files).2
  = match mapM get_read_length fastq_files with
    | Some rls =>
        Returned (config_passed && forallb (os_path_isfile os) fastq_files,
                  read_lengths ++ rls)
    | None => Raised ReadError
    end.
Proof.
  revert config_passed read_lengths.
  induction fastq_files as [|f fs IH]; intros config_passed read_lengths.
  { simpl. by rewrite andb_true_r, app_nil_r. }
  cbn [check_config_loop].
  assert (mapM get_read_length (f :: fs)
          = rlen ← get_read_length f;
            (rlen ::.) <$> mapM get_read_length fs) as ->.
  { simpl. destruct (get_read_length f); [|done]. simpl.
    by destruct (mapM get_read_length fs). }
  rewrite Logged_bind_outcome.
  assert ((if os_path_isfile os f then mret config_passed
           else logging ERROR msg_mate_not_valid;; mret false).2
          = Returned (config_passed && os_path_isfile os f)) as ->.
  { destruct (os_path_isfile os f); [by rewrite andb_true_r|].
    by rewrite andb_false_r. }
  rewrite Logged_bind_outcome.
  destruct (get_read_length f) as [rlen|]; logged_cbn; [|done].
  do 2 logged_step. rewrite IH. simpl.
  destruct (mapM get_read_length fs) as [rls|]; [|done]. simpl.
  by rewrite <- app_assoc, andb_assoc.
Qed.

(** [check_config] as a function of what it looks at. *)
Lemma check_config_outcome os fastq_files segment_length output_dir
    bowtie_path index_dir num_processors :
  (check_config os fastq_files segment_length output_dir bowtie_path
     index_dir num_processors).2
  = match mapM get_read_length fastq_files with
    | Some read_lengths =>
        Returned
          (forallb (os_path_isfile os) fastq_files
           && negb (bool_decide (1 < len_set read_lengths)%nat)
           && negb (bool_decide
                      (Exists (λ rlen, rlen < segment_length) read_lengths))
           && negb (os_path_exists os output_dir
                    && negb (os_path_isdir os output_dir))
           && check_executable (path_join bowtie_path "bowtie-build")
           && check_executable (path_join bowtie_path "bowtie")
           && os_path_isdir os index_dir
           && os_path_isfile os (path_join index_dir BOWTIE_INDEX_FILE))
    | None => Raised ReadError
    end.
Proof.
  unfold check_config.
  rewrite Logged_bind_outcome, check_config_loop_outcome.
  destruct (mapM get_read_length fastq_files) as [read_lengths|]; [|done].
  rewrite app_nil_l, andb_true_l.
  destruct (forallb (os_path_isfile os) fastq_files),
    (bool_decide (1 < len_set read_lengths)%nat),
    (bool_decide (Exists (λ rlen, rlen < segment_length) read_lengths)),
    (os_path_exists os output_dir && negb (os_path_isdir os output_dir)),
    (check_executable (path_join bowtie_path "bowtie-build")),
    (check_executable (path_join bowtie_path "bowtie")),
    (os_path_isdir os index_dir),
    (os_path_isfile os (path_join index_dir BOWTIE_INDEX_FILE)),
    (bool_decide (num_processors < BASE_PROCESSORS)); reflexivity.
Qed.

(** X19.  [check_config] returns [True] exactly when every FASTQ file
    is a regular file that can be read, all read lengths are equal and
    none is below the segment length, the output directory is absent or
    a directory, both bowtie executables are found, and the index
    directory is a directory that holds the bowtie index file. *)
Theorem check_config_passes_iff os fastq_files segment_length output_dir
    bowtie_path index_dir num_processors :
  (check_config os fastq_files segment_length output_dir bowtie_path
     index_dir num_processors).2 = Returned true
  ↔ Forall (λ f, os !! f = Some RegularFile) fastq_files
    ∧ (∃ read_lengths,
         mapM get_read_length fastq_files = Some read_lengths
         ∧ (∀ x y, x ∈ read_lengths → y ∈ read_lengths → x = y)
         ∧ Forall (λ rlen, segment_length ≤ rlen) read_lengths)
    ∧ (os !! output_dir = None ∨ os !! output_dir = Some Directory)
    ∧ check_executable (path_join bowtie_path "bowtie-build") = true
    ∧ check_executable (path_join bowtie_path "bowtie") = true
    ∧ os !! index_dir = Some Directory
    ∧ os !! path_join index_dir BOWTIE_INDEX_FILE = Some RegularFile.
Proof.
  rewrite check_config_outcome.
  destruct (mapM get_read_length fastq_files) as [read_lengths|].
  2:{ split; [done|]. by intros (_ & (? & ? & _) & _). }
  assert (∀ b, Returned b = Returned true ↔ b = true) as ->.
  { intros b. split; [by intros [= ->]|by intros ->]. }
  rewrite !andb_true_iff, !negb_true_iff, !bool_decide_eq_false.
  assert (forallb (os_path_isfile os) fastq_files = true
          ↔ Forall (λ f, os !! f = Some RegularFile) fastq_files) as ->.
  { induction fastq_files as [|f fs IH]; simpl; [done|].
    rewrite Forall_cons, andb_true_iff, IH. unfold os_path_isfile.
    by rewrite bool_decide_eq_true. }
  unfold os_path_isfile, os_path_isdir, os_path_exists.
  rewrite !bool_decide_eq_true.
  assert (¬ (1 < len_set read_lengths)%nat
          ↔ ∀ x y, x ∈ read_lengths → y ∈ read_lengths → x = y) as ->.
  { rewrite <- len_set_le_1. lia. }
  assert (¬ Exists (λ rlen, rlen < segment_length) read_lengths
          ↔ Forall (λ rlen, segment_length ≤ rlen) read_lengths) as ->.
  { rewrite <- Forall_Exists_neg. apply Forall_proper; [|done].
    intros rlen. lia. }
  assert (bool_decide (is_Some (os !! output_dir))
          && negb (bool_decide (os !! output_dir = Some Directory)) = false
          ↔ os !! output_dir = None ∨ os !! output_dir = Some Directory) as ->.
  { destruct (os !! output_dir) as [[]|]; simpl.
    - split; [done|]. by intros [|].
    - split; [by right|done].
    - split; [done|]. by intros [|].
    - split; [by left|done]. }
  split.
  - intros (((((((?&?)&?)&?)&?)&?)&?)&?). split_and!; by eauto.
  - intros (?&(rls & [= <-] & ? & ?)&?&?&?&?&?). by split_and!.
Qed.

(** X20.  [check_config] returns a verdict exactly when the read length
    of every FASTQ file can be determined, and otherwise raises what
    [get_read_length] raises: no failed check ends the run by itself.
    The number of processors has no influence on the verdict. *)
Theorem check_config_returns_iff os fastq_files segment_length output_dir
    bowtie_path index_dir num_processors :
  ((∃ b, (check_config os fastq_files segment_length output_dir bowtie_path
            index_dir num_processors).2 = Returned b)
   ↔ Forall (λ f, is_Some (get_read_length f)) fastq_files)
  ∧ ((check_config os fastq_files segment_length output_dir bowtie_path
        index_dir num_processors).2 = Raised ReadError
     ↔ Exists (λ f, get_read_length f = None) fastq_files)
  ∧ (∀ num_processors',
       (check_config os fastq_files segment_length output_dir bowtie_path
          index_dir num_processors').2
       = (check_config os fastq_files segment_length output_dir bowtie_path
            index_dir num_processors).2).
Proof.
  assert (is_Some (mapM get_read_length fastq_files)
          ↔ Forall (λ f, is_Some (get_read_length f)) fastq_files) as Hall.
  { apply mapM_is_Some. }
  rewrite !check_config_outcome. split_and!.
  - rewrite <- Hall.
    destruct (mapM get_read_length fastq_files) as [rls|].
    + split; by eauto.
    + split; [by intros [? ?]|by intros [? ?]].
  - assert (Exists (λ f, get_read_length f = None) fastq_files
            ↔ ¬ is_Some (mapM get_read_length fastq_files)) as ->.
    { rewrite Hall, <- Exists_Forall_neg.
      - apply Exists_proper; [|done]. intros f.
        by rewrite eq_None_not_Some.
      - intros f. destruct (get_read_length f); [left; by eauto|right].
        by intros []. }
    destruct (mapM get_read_length fastq_files) as [rls|].
    + split; [done|]. intros []. by eauto.
    + split; [|done]. by intros _ [].
  - intros num_processors'. by rewrite check_config_outcome.
Qed.

Lemma logs_error_app (l1 l2 : list log_record) :
  logs_error (l1 ++ l2) ↔ logs_error l1 ∨ logs_error l2.
Proof.
  unfold logs_error. setoid_rewrite elem_of_app. split.
  - intros (msg & [?|?]); by eauto.
  - intros [(msg & ?)|(msg & ?)]; by eauto.
Qed.

Lemma logs_error_nil : ¬ logs_error [].
Proof. intros (msg & Hin). by apply elem_of_nil in Hin. Qed.

Lemma Logged_bind_assoc {A B C} (m : Logged A) (f : A → Logged B)
    (g : B → Logged C) :
  (m ≫= f) ≫= g = m ≫= (λ x, f x ≫= g).
Proof.
  unfold mbind, Logged_bind. destruct m as [l1 [x|msg|e]]; simpl; [|done..].
  destruct (f x) as [l2 [y|msg|e]]; simpl; [|done..].
  by rewrite app_assoc.
Qed.

Lemma tracks_errors_bind (m : Logged bool) (f : bool → Logged bool) b0 :
  tracks_errors b0 m → (∀ b1, tracks_errors b1 (f b1)) →
  tracks_errors b0 (m ≫= f).
Proof.
  intros Hm Hf b. rewrite Logged_bind_log, Logged_bind_outcome.
  destruct m.2 as [b1|msg|e] eqn:Hm2; [|done..].
  intros Hb. rewrite logs_error_app, (Hf b1 b Hb), (Hm b1 Hm2). tauto.
Qed.

Lemma tracks_errors_quiet {A} (m : Logged A) (f : A → Logged bool) b0 :
  ¬ logs_error m.1 → (∀ x, tracks_errors b0 (f x)) →
  tracks_errors b0 (m ≫= f).
Proof.
  intros Hm Hf b. rewrite Logged_bind_log, Logged_bind_outcome.
  destruct m.2 as [x|msg|e] eqn:Hm2; [|done..].
  intros Hb. rewrite logs_error_app, (Hf x b Hb). tauto.
Qed.

Lemma tracks_errors_ret b0 : tracks_errors b0 (mret b0).
Proof.
  intros b [= <-]. split; [by left|].
  intros [?|[]%logs_error_nil]. done.
Qed.

Lemma tracks_errors_error msg b0 :
  tracks_errors b0 (logging ERROR msg;; mret false).
Proof.
  intros b [= <-]. split; [|done]. intros _. right. exists msg. left.
Qed.

Lemma logging_quiet level msg :
  level ≠ ERROR → ¬ logs_error (logging level msg).1.
Proof.
  intros Hne (msg' & Hin). apply list_elem_of_singleton in Hin.
  by injection Hin as <-.
Qed.

Lemma check_config_loop_tracks os b0 read_lengths fastq_files
    (f : bool * list Z → Logged bool) :
  (∀ b1 rls, tracks_errors b1 (f (b1, rls))) →
  tracks_errors b0 (check_config_loop os b0 read_lengths fastq_files ≫= f).
Proof.
  intros Hf. revert b0 read_lengths.
  induction fastq_files as [|fq fs IH]; intros b0 read_lengths.
  { simpl. intros b Hb. apply (Hf b0 read_lengths b) in Hb.
    unfold mbind, Logged_bind. simpl. by destruct (f (b0, read_lengths)).2. }
  cbn [check_config_loop]. rewrite Logged_bind_assoc.
  apply tracks_errors_bind.
  { destruct (os_path_isfile os fq);
      [apply tracks_errors_ret|apply tracks_errors_error]. }
  intros b1. rewrite Logged_bind_assoc.
  apply tracks_errors_quiet.
  { destruct (get_read_length fq); apply logs_error_nil. }
  intros rlen. rewrite Logged_bind_assoc.
  apply tracks_errors_quiet; [by apply logging_quiet|]. intros _.
  rewrite Logged_bind_assoc.
  apply tracks_errors_quiet; [by apply logging_quiet|]. intros _.
  apply IH.
Qed.

(** X21.  When [check_config] returns, it returns [False] exactly when
    it has logged a record of level [ERROR]. *)
Theorem check_config_rejects_iff_error_logged os fastq_files segment_length
    output_dir bowtie_path index_dir num_processors log config_passed :
  check_config os fastq_files segment_length output_dir bowtie_path
    index_dir num_processors = (log, Returned config_passed) →
  config_passed = false ↔ logs_error log.
Proof.
  intros Hrun.
  assert (tracks_errors true
            (check_config os fastq_files segment_length output_dir bowtie_path
               index_dir num_processors)) as Htracks.
  { unfold check_config. apply check_config_loop_tracks.
    intros b1 rls.
    apply tracks_errors_bind.
    { case_bool_decide; [apply tracks_errors_error|apply tracks_errors_ret]. }
    clear b1. intros b1. apply tracks_errors_bind.
    { case_bool_decide; [apply tracks_errors_error|apply tracks_errors_ret]. }
    clear b1. intros b1. apply tracks_errors_bind.
    { destruct (_ && _); [apply tracks_errors_error|apply tracks_errors_ret]. }
    clear b1. intros b1. apply tracks_errors_bind.
    { destruct (check_executable _); [|apply tracks_errors_error].
      apply tracks_errors_quiet; [by apply logging_quiet|].
      intros _. apply tracks_errors_ret. }
    clear b1. intros b1. apply tracks_errors_bind.
    { destruct (check_executable _); [|apply tracks_errors_error].
      apply tracks_errors_quiet; [by apply logging_quiet|].
      intros _. apply tracks_errors_ret. }
    clear b1. intros b1. apply tracks_errors_bind.
    { destruct (os_path_isdir os index_dir); [|apply tracks_errors_error].
      apply tracks_errors_quiet; [by apply logging_quiet|]. intros _.
      destruct (os_path_isfile os _); [|apply tracks_errors_error].
      apply tracks_errors_quiet; [by apply logging_quiet|].
      intros _. apply tracks_errors_ret. }
    clear b1. intros b1. apply tracks_errors_quiet.
    { case_bool_decide; [by apply logging_quiet|apply logs_error_nil]. }
    intros _. apply tracks_errors_ret. }
  specialize (Htracks config_passed). rewrite Hrun in Htracks.
  rewrite (Htracks eq_refl). simpl. split; [by intros [|]|by right].
Qed.

End ValidationProofs.

(** * Command line over configuration file *)

Lemma getattr_Returned (obj : gmap string py_value) attrname v :
  (getattr obj attrname).2 = Returned v ↔ obj !! attrname = Some v.
Proof.
  unfold getattr. destruct (obj !! attrname) as [w|]; simpl.
  - split; by intros [= ->].
  - split; done.
Qed.

Lemma py_index_Returned {A} (l : list A) (i : nat) (x : A) :
  (py_index l i).2 = Returned x ↔ l !! i = Some x.
Proof.
  unfold py_index. destruct (l !! i) as [y|]; simpl.
  - split; by intros [= ->].
  - split; done.
Qed.

Lemma from_args_loop_Returned (options obj obj' : gmap string py_value)
    (l : list (string * attr_type * py_value)) :
  NoDup (l.*1.*1) →
  (from_args_loop options obj l).2 = Returned obj' →
  (∀ n, n ∉ l.*1.*1 → obj' !! n = obj !! n)
  ∧ ∀ n ty d, (n, ty, d) ∈ l →
      ∃ current value,
        obj !! n = Some current ∧ options !! n = Some value
        ∧ obj' !! n
          = Some (if bool_decide (current = PyNone) then value
                  else if py_ne value d then value else current).
Proof.
  revert obj. induction l as [|[[n0 ty0] d0] l IH]; intros obj Hnd Hret.
  { simpl in Hret. injection Hret as <-. split; [done|].
    intros n ty d Hin. by apply elem_of_nil in Hin. }
  rewrite !fmap_cons in Hnd. simpl in Hnd.
  apply NoDup_cons in Hnd as [Hn0 Hnd].
  cbn [from_args_loop] in Hret.
  apply Logged_bind_Returned in Hret as (current & Hcur%getattr_Returned & Hret).
  apply Logged_bind_Returned in Hret as (override & Hov & Hret).
  apply Logged_bind_Returned in Hret as (obj1 & Hobj1 & Hret).
  destruct (IH obj1 Hnd Hret) as [Hframe Hmerge]. clear IH Hret.
  assert (∃ value, options !! n0 = Some value
            ∧ override = (if bool_decide (current = PyNone) then true
                          else py_ne value d0)
            ∧ obj1 = if override then <[n0 := value]> obj else obj)
    as (value & Hval & Hov' & Hobj1').
  { case_bool_decide as Hnone.
    - injection Hov as <-.
      apply Logged_bind_Returned in Hobj1
        as (value & Hval%getattr_Returned & [= <-]).
      by exists value.
    - apply Logged_bind_Returned in Hov
        as (value & Hval%getattr_Returned & [= <-]).
      exists value. split_and!; [done..|].
      destruct (py_ne value d0).
      + apply Logged_bind_Returned in Hobj1
          as (value' & Hval'%getattr_Returned & [= <-]).
        congruence.
      + by injection Hobj1 as <-. }
  assert (obj1 !! n0
          = Some (if bool_decide (current = PyNone) then value
                  else if py_ne value d0 then value else current)) as Hhead.
  { rewrite Hobj1', Hov'. case_bool_decide; [by rewrite lookup_insert_eq|].
    destruct (py_ne value d0); [by rewrite lookup_insert_eq|done]. }
  assert (∀ n, n ≠ n0 → obj1 !! n = obj !! n) as Hother.
  { intros n Hne. rewrite Hobj1'.
    destruct override; [by rewrite lookup_insert_ne|done]. }
  split.
  - intros n Hn. rewrite !fmap_cons in Hn. simpl in Hn.
    apply not_elem_of_cons in Hn as [Hne Hn].
    by rewrite Hframe, Hother.
  - intros n ty d [[= -> -> ->]|Hin]%elem_of_cons.
    + exists current, value. split_and!; [done..|].
      by rewrite Hframe.
    + destruct (Hmerge n ty d Hin) as (cur & val & Hc & Hv & Hres).
      exists cur, val. split_and!; [|done..].
      rewrite <- Hother; [done|]. intros ->. apply Hn0.
      apply list_elem_of_fmap. exists (n0, ty). split; [done|].
      apply list_elem_of_fmap. by exists (n0, ty, d).
Qed.

Lemma from_args_loop_is_Returned (options obj : gmap string py_value)
    (l : list (string * attr_type * py_value)) :
  (∀ n, n ∈ l.*1.*1 → is_Some (obj !! n) ∧ is_Some (options !! n)) →
  ∃ obj', (from_args_loop options obj l).2 = Returned obj'.
Proof.
  revert obj. induction l as [|[[n0 ty0] d0] l IH]; intros obj Hdef.
  { by eexists. }
  destruct (Hdef n0) as [[current Hcur] [value Hval]].
  { rewrite !fmap_cons. left. }
  cbn [from_args_loop]. rewrite Logged_bind_outcome.
  unfold getattr at 1. rewrite Hcur. logged_cbn.
  rewrite Logged_bind_outcome.
  assert (∃ override obj1,
    ((if bool_decide (current = PyNone) then mret true
      else value ← getattr options n0; mret (py_ne value d0))
       : Logged bool).2
    = Returned override
    ∧ ((if override then value ← getattr options n0;
                         mret (<[n0 := value]> obj)
        else mret obj) : Logged (gmap string py_value)).2 = Returned obj1
    ∧ ∀ n, is_Some (obj !! n) → is_Some (obj1 !! n))
    as (override & obj1 & -> & Hobj1 & Hkeep).
  { exists (if bool_decide (current = PyNone) then true else py_ne value d0),
           (if (if bool_decide (current = PyNone) then true else py_ne value d0)
            then <[n0 := value]> obj else obj).
    split_and!.
    - case_bool_decide; [done|]. rewrite Logged_bind_outcome.
      unfold getattr. by rewrite Hval.
    - destruct (if bool_decide _ then _ else _); [|done].
      rewrite Logged_bind_outcome. unfold getattr. by rewrite Hval.
    - intros n Hn. destruct (if bool_decide _ then _ else _); [|done].
      rewrite lookup_insert. case_decide; [by eauto|done]. }
  rewrite Logged_bind_outcome, Hobj1. apply IH.
  intros n Hn. destruct (Hdef n) as [Ho Hopt].
  { rewrite !fmap_cons. by right. }
  split; [by apply Hkeep|done].
Qed.

Section FromArgsProofs.
Context `{BaseLib} `{ConfigLib}.

Lemma attrs_NoDup : NoDup (attrs.*1.*1).
Proof. by_compute. Qed.

(** X22.  The merge rule of [from_args]: for each attribute of
    [RunConfig.attrs], the value of the command line replaces the one
    the object holds when the latter is [None] or when the former
    differs from the default of the attribute; otherwise the object
    keeps its value. *)
Theorem from_args_merges self options args self' attrname attrtype attrdefault :
  (from_args self options args).2 = Returned self' →
  (attrname, attrtype, attrdefault) ∈ attrs →
  ∃ current value,
    self_attrs self !! attrname = Some current
    ∧ options !! attrname = Some value
    ∧ self_attrs self' !! attrname
      = Some (if bool_decide (current = PyNone) then value
              else if py_ne value attrdefault then value else current).
Proof.
  intros Hret Hin. unfold from_args in Hret.
  do 3 (apply Logged_bind_Returned in Hret as (? & _ & Hret)).
  apply Logged_bind_Returned in Hret as (obj & Hloop & [= <-]).
  destruct (from_args_loop_Returned _ _ _ _ attrs_NoDup Hloop) as [_ Hmerge].
  by apply (Hmerge attrname attrtype attrdefault).
Qed.

(** X23.  Without a configuration file, [from_args] ends in
    [IndexError] on no positional argument, in the parser error on the
    FASTQ files on one, in the parser error on the output directory on
    two, and in [IndexError] on three, where the test [len(args) < 3]
    passes and [args[3]] is read; when it returns there were at least
    four, and the index directory, the FASTQ files and the output
    directory are [args[0]], [args[1:3]] and [args[3]]. *)
Theorem from_args_positional self options args :
  self_index_dir self = None →
  self_fastq_files self = None →
  self_output_dir self = None →
  (length args = 0%nat → from_args self options args = ([], Raised IndexError))
  ∧ (length args = 1%nat →
     from_args self options args = ([], ParserError msg_fastq_not_specified))
  ∧ (length args = 2%nat →
     from_args self options args = ([], ParserError msg_output_not_specified))
  ∧ (length args = 3%nat →
     from_args self options args = ([], Raised IndexError))
  ∧ (∀ self', (from_args self options args).2 = Returned self' →
       (4 ≤ length args)%nat
       ∧ self_index_dir self' = args !! 0%nat
       ∧ self_fastq_files self' = Some (take 2 (drop 1 args))
       ∧ self_output_dir self' = args !! 3%nat).
Proof.
  intros Hi Hf Ho. unfold from_args. rewrite Hi, Hf, Ho.
  split_and!.
  - by destruct args.
  - by destruct args as [|? [|? ?]].
  - by destruct args as [|? [|? [|? ?]]].
  - by destruct args as [|? [|? [|? [|? ?]]]].
  - intros self' Hret.
    apply Logged_bind_Returned in Hret as (i & Hi'%py_index_Returned & Hret).
    apply Logged_bind_Returned in Hret as (f & Hf' & Hret).
    apply Logged_bind_Returned in Hf' as (? & _ & [= <-]).
    apply Logged_bind_Returned in Hret as (o & Ho' & Hret).
    apply Logged_bind_Returned in Ho' as (? & _ & Ho'%py_index_Returned).
    apply Logged_bind_Returned in Hret as (obj & _ & [= <-]). simpl.
    apply lookup_lt_Some in Ho' as Hlen. split_and!; [lia|done..].
Qed.

Lemma RunConfig_init_lookup n :
  n ∈ attrs.*1.*1 → self_attrs RunConfig_init !! n = Some PyNone.
Proof.
  unfold RunConfig_init. cbn [self_attrs].
  assert (∀ (l : list (string * attr_type * py_value))
            (obj : gmap string py_value),
    foldl (λ obj a, <[a.1.1 := PyNone]> obj) obj l !! n
    = if decide (n ∈ l.*1.*1) then Some PyNone else obj !! n) as Hfold.
  { induction l as [|a l IH]; intros obj; [done|].
    cbn [foldl]. rewrite IH, !fmap_cons.
    destruct (decide (n ∈ l.*1.*1)) as [Hin|Hin].
    - rewrite decide_True; [done|by right].
    - destruct (decide (n = a.1.1)) as [->|Hne].
      + rewrite lookup_insert_eq, decide_True; [done|left].
      + rewrite lookup_insert_ne, decide_False; [done| |done].
        by intros [?|?]%elem_of_cons. }
  intros Hin. by rewrite Hfold, decide_True.
Qed.

(** X24.  On a fresh [RunConfig], with at least four positional
    arguments and an option for every attribute, [from_args] returns,
    and every attribute holds the value of its option. *)
Theorem from_args_fresh options args :
  (4 ≤ length args)%nat →
  (∀ n, n ∈ attrs.*1.*1 → is_Some (options !! n)) →
  ∃ self',
    (from_args RunConfig_init options args).2 = Returned self'
    ∧ self_index_dir self' = args !! 0%nat
    ∧ self_fastq_files self' = Some (take 2 (drop 1 args))
    ∧ self_output_dir self' = args !! 3%nat
    ∧ ∀ n, n ∈ attrs.*1.*1 → self_attrs self' !! n = options !! n.
Proof.
  intros Hlen Hopt.
  destruct (from_args_loop_is_Returned options (self_attrs RunConfig_init) attrs)
    as [obj Hobj].
  { intros n Hn. split; [|by apply Hopt].
    rewrite RunConfig_init_lookup by done. by eauto. }
  destruct args as [|a0 [|a1 [|a2 [|a3 args]]]]; [simpl in Hlen; lia..|].
  exists (mkRunConfigObject (Some a3) (Some [a1; a2]) (Some a0) obj).
  split_and!; [|done..|].
  - unfold from_args. cbn [self_index_dir self_fastq_files self_output_dir
                            RunConfig_init].
    logged_step. rewrite Logged_bind_outcome.
    rewrite (Logged_bind_outcome (if bool_decide _ then _ else _)).
    rewrite bool_decide_eq_false_2 by (simpl; lia). logged_cbn.
    rewrite Logged_bind_outcome.
    rewrite (Logged_bind_outcome (if bool_decide _ then _ else _)).
    rewrite bool_decide_eq_false_2 by (simpl; lia). logged_cbn.
    rewrite Logged_bind_outcome.
    change (self_attrs _) with (self_attrs RunConfig_init) in Hobj |- *.
    by rewrite Hobj.
  - intros n Hn. cbn [self_attrs].
    destruct (from_args_loop_Returned _ _ _ _ attrs_NoDup Hobj) as [_ Hmerge].
    apply list_elem_of_fmap in Hn as ([n' ty] & -> & Hn).
    apply list_elem_of_fmap in Hn as ([[n'' ty'] d] & [= <- <-] & Hn).
    destruct (Hmerge _ _ _ Hn) as (cur & val & Hcur & Hval & Hres).
    rewrite RunConfig_init_lookup in Hcur.
    2:{ apply list_elem_of_fmap. exists (n', ty). split; [done|].
        apply list_elem_of_fmap. by exists (n', ty, d). }
    injection Hcur as <-. simpl in *. by rewrite Hres, Hval.
Qed.

End FromArgsProofs.

(** ** The further properties on the small examples *)

Lemma isoform_collapse_Permutation_witness :
  ∃ out',
    isoform_collapse (H := table_gene_lib) demo_tx_cluster_map
      demo_tx_genome_map [demo_c3; demo_c2; demo_c1] = Some out'
    ∧ [demo_c2; demo_c3] ≡ₚ out'.
Proof.
  apply (isoform_collapse_Permutation (H := table_gene_lib)
           demo_tx_cluster_map demo_tx_genome_map
           [demo_c1; demo_c2; demo_c3]).
  - by_compute.
  - by_compute.
Defined.

Lemma isoform_collapse_covers_groups_witness :
  [demo_c2; demo_c3] `sublist_of` [demo_c1; demo_c2; demo_c3]
  ∧ (∀ c, c ∈ [demo_c1; demo_c2; demo_c3] →
       ∃ m, m ∈ [demo_c2; demo_c3]
            ∧ breakpoint_key (H := table_gene_lib) demo_tx_cluster_map
                demo_tx_genome_map m
              = breakpoint_key (H := table_gene_lib) demo_tx_cluster_map
                  demo_tx_genome_map c
            ∧ top_ranked (H := table_gene_lib) demo_tx_cluster_map
                demo_tx_genome_map [demo_c1; demo_c2; demo_c3] m)
  ∧ ([demo_c1; demo_c2; demo_c3] ≠ [] → [demo_c2; demo_c3] ≠ []).
Proof.
  apply (isoform_collapse_covers_groups (H := table_gene_lib)
           demo_tx_cluster_map demo_tx_genome_map).
  by_compute.
Defined.

Lemma parse_false_pos_line_fields_witness :
  parse_false_pos_line
    (TextLine ("txA1" +:+ tab +:+ "450" +:+ tab +:+ "txB1" +:+ tab
               +:+ "60" +:+ newline))
  = Some ("txA1"%string, 450, "txB1"%string, 60).
Proof.
  apply parse_false_pos_line_fields; by_compute.
Defined.

Lemma good_monotone_witness :
  good (Qc_of_Z 2) 1500 ∅ demo_c3 = true.
Proof.
  apply (good_monotone (Qc_of_Z 3) (Qc_of_Z 2) 1200 1500
           {[ ("txA9"%string, 1, "txB9"%string, 2) ]} ∅ demo_c3).
  - by_compute.
  - right. lia.
  - by_compute.
  - by_compute.
Defined.

Lemma up_to_date_chain_witness :
  up_to_date chain_meta "isize.txt" "reads.fq" = true.
Proof.
  apply (up_to_date_chain chain_meta "reads.fq" "aligned.bam" "isize.txt");
    by_compute.
Defined.

Lemma profile_insert_size_empirical_witness :
  isize_dist (profile_insert_size (H := sample_isize_lib) demo_config 50
                demo_meta ∅ [180; 220; 200; 210; 190] [10; -20]
                "isize.txt" "aligned.bam")
  = Some [180; 220; 200; 210; 190].
Proof.
  apply (profile_insert_size_empirical (H := sample_isize_lib) demo_config 50
           demo_meta ∅ [180; 220; 200; 210; 190] [10; -20]
           "isize.txt" "aligned.bam").
  - by_compute.
  - by_compute.
Defined.



Lemma filter_chimeras_output_sublist_witness :
  ∃ false_pos_pairs written,
    (load_false_pos (Some "fp.txt"%string) demo_fs).2 = Some false_pos_pairs
    ∧ [RecordLine demo_c2] = RecordLine <$> written
    ∧ written `sublist_of` [demo_c1; demo_c2; demo_c3]
    ∧ ∀ c, c ∈ written →
        ∃ c0, c0 ∈ [demo_c1; demo_c2; demo_c3] ∧ name c0 = name c
              ∧ good (Qc_of_Z 3) 1200 false_pos_pairs c0 = true.
Proof.
  apply (filter_chimeras_output_sublist (H := table_gene_lib)
           (H0 := fresh_os_lib) "in.txt" "out/filtered.txt" "idx" (Qc_of_Z 3)
           1200 (Some "fp.txt"%string) demo_fs
           (<[ "out/filtered.txt"%string := [RecordLine demo_c2] ]> demo_fs)
           JOB_SUCCESS).
  - by_compute.
  - by_compute.
  - discriminate.
  - by_compute.
Defined.

Lemma filter_chimeras_output_passes_witness :
  demo_c2 ∈ [demo_c1; demo_c2; demo_c3]
  ∧ (Qc_of_Z 3 ≤ get_weighted_unique_frags demo_c2)%Qc
  ∧ (0 < 1200 →
     inner_dist (partner5p demo_c2) ≤ 1200
     ∧ inner_dist (partner3p demo_c2) ≤ 1200).
Proof.
  apply (filter_chimeras_output_passes (H := table_gene_lib)
           (H0 := fresh_os_lib) "in.txt" "out/filtered.txt" "idx" (Qc_of_Z 3)
           1200 (Some "fp.txt"%string) demo_fs
           (<[ "out/filtered.txt"%string := [RecordLine demo_c2] ]> demo_fs)
           JOB_SUCCESS [demo_c1; demo_c2; demo_c3] [RecordLine demo_c2]).
  - by_compute.
  - by_compute.
  - by_compute.
  - discriminate.
  - by_compute.
  - by_compute.
Defined.


Lemma filter_chimeras_malformed_blacklist_witness :
  (read_false_pos_file "fp.txt" blank_line_fs).2 = None
  ∧ filter_chimeras (H := table_gene_lib) (H0 := fresh_os_lib) "in.txt"
      "out/filtered.txt" "idx" (Qc_of_Z 3) 1200 (Some "fp.txt"%string)
      blank_line_fs
    = (blank_line_fs, None).
Proof.
  apply (filter_chimeras_malformed_blacklist (H := table_gene_lib)
           (H0 := fresh_os_lib) "in.txt" "out/filtered.txt" "idx" (Qc_of_Z 3)
           1200 "fp.txt" blank_line_fs
           (demo_blacklist ++ [TextLine newline]) newline).
  - discriminate.
  - by_compute.
  - by_compute.
  - by_compute.
Defined.

Lemma read_false_pos_file_keys_witness :
  Forall (λ l, is_Some (parse_false_pos_line l)) demo_blacklist
  ∧ ∀ k, k ∈ ({[ ("txA1"%string, 450, "txB1"%string, 60) ]} : gset false_pos_key)
         ↔ ∃ l, l ∈ demo_blacklist ∧ parse_false_pos_line l = Some k.
Proof.
  apply (read_false_pos_file_keys "fp.txt" demo_fs).
  - by_compute.
  - by_compute.
Defined.

Lemma check_config_rejects_iff_error_logged_witness :
  false = false
  ↔ logs_error
      (check_config (H := fresh_os_lib) (H0 := demo_base_lib) demo_os
         ["r1.fq"%string; "short.fq"%string] 30 "out" "/usr/bin" "idx" 1).1.
Proof.
  apply (check_config_rejects_iff_error_logged (H := fresh_os_lib)
           (H0 := demo_base_lib) demo_os ["r1.fq"%string; "short.fq"%string]
           30 "out" "/usr/bin" "idx" 1).
  vm_compute. reflexivity.
Defined.

Lemma from_args_merges_witness :
  ∃ current value,
    self_attrs demo_self !! "trim5"%string = Some current
    ∧ demo_options !! "trim5"%string = Some value
    ∧ self_attrs demo_merged !! "trim5"%string
      = Some (if bool_decide (current = PyNone) then value
              else if py_ne value (PyInt DEFAULT_TRIM5) then value
                   else current).
Proof.
  apply (from_args_merges (H := demo_base_lib) (H0 := demo_config_lib)
           demo_self demo_options [] demo_merged "trim5" attr_int
           (PyInt DEFAULT_TRIM5)).
  - reflexivity.
  - by_compute.
Defined.

Lemma from_args_positional_witness :
  from_args (H := demo_base_lib) (H0 := demo_config_lib)
    (RunConfig_init (H := demo_base_lib) (H0 := demo_config_lib))
    demo_options ["idx"%string; "r1.fq"%string; "out"%string]
  = ([], Raised IndexError).
Proof.
  destruct (from_args_positional (H := demo_base_lib) (H0 := demo_config_lib)
              (RunConfig_init (H := demo_base_lib) (H0 := demo_config_lib))
              demo_options
              ["idx"%string; "r1.fq"%string; "out"%string])
    as (_ & _ & _ & Hthree & _); [reflexivity..|].
  apply Hthree. reflexivity.
Defined.

Lemma from_args_fresh_witness :
  ∃ self',
    (from_args (H := demo_base_lib) (H0 := demo_config_lib)
       (RunConfig_init (H := demo_base_lib) (H0 := demo_config_lib))
       demo_options
       ["idx"%string; "r1.fq"%string; "r2.fq"%string; "out"%string]).2
    = Returned self'
    ∧ self_index_dir self' = Some "idx"%string
    ∧ self_fastq_files self' = Some ["r1.fq"%string; "r2.fq"%string]
    ∧ self_output_dir self' = Some "out"%string
    ∧ ∀ n, n ∈ (attrs (H := demo_base_lib) (H0 := demo_config_lib)).*1.*1 →
           self_attrs self' !! n = demo_options !! n.
Proof.
  apply (from_args_fresh (H := demo_base_lib) (H0 := demo_config_lib)
           demo_options
           ["idx"%string; "r1.fq"%string; "r2.fq"%string; "out"%string]).
  - simpl. lia.
  - apply Forall_forall. by_compute.
Defined.
